(** * Transmuter simulation: pool, limiters and midpoint projection

    A shallow embedding of [simulation/simulation/limiters.py],
    [simulation/simulation/pool.py] and [project_point] of
    [simulation/rebalance_incentive.py].

    Python numbers are modelled through the class [PyNum]: the
    instance [float_num] is IEEE binary64 (Rocq's primitive floats, the
    semantics of Python [float]); the instance [Q_num] is exact rational
    arithmetic, used to state what the code computes when no rounding
    occurs.  Python dictionaries are association lists that keep
    insertion order; Python exceptions are the constructors of [exn],
    raised through a small state-and-exception monad over the pool. *)

From Stdlib Require Import ZArith QArith List String Bool Lia.
From Stdlib Require Import PrimFloat Lqa Sorted.
Import ListNotations.

#[local] Set Warnings "-inexact-float".

(** ** Python numbers *)

Class PyNum (T : Type) := {
  py_zero : T;
  py_one : T;
  py_add : T -> T -> T;
  py_sub : T -> T -> T;
  py_mul : T -> T -> T;
  (** the quotient; callers check the divisor where Python raises *)
  py_div : T -> T -> T;
  py_of_Z : Z -> T;
  (** Python [==] and [<] *)
  py_eqb : T -> T -> bool;
  py_ltb : T -> T -> bool
}.

(** [float(n)] for an integer [n]: exact below 2^53, the range of the
    timestamps the simulation produces. *)
Fixpoint float_of_pos (p : positive) : float :=
  match p with
  | xH => PrimFloat.one
  | xO q => PrimFloat.mul PrimFloat.two (float_of_pos q)
  | xI q => PrimFloat.add (PrimFloat.mul PrimFloat.two (float_of_pos q)) PrimFloat.one
  end.

Definition float_of_Z (z : Z) : float :=
  match z with
  | Z0 => PrimFloat.zero
  | Zpos p => float_of_pos p
  | Zneg p => PrimFloat.opp (float_of_pos p)
  end.

#[global] Instance float_num : PyNum float := {
  py_zero := PrimFloat.zero;
  py_one := PrimFloat.one;
  py_add := PrimFloat.add;
  py_sub := PrimFloat.sub;
  py_mul := PrimFloat.mul;
  py_div := PrimFloat.div;
  py_of_Z := float_of_Z;
  py_eqb := PrimFloat.eqb;
  py_ltb := PrimFloat.ltb
}.

#[global] Instance Q_num : PyNum Q := {
  py_zero := 0%Q;
  py_one := 1%Q;
  py_add := Qplus;
  py_sub := Qminus;
  py_mul := Qmult;
  py_div := Qdiv;
  py_of_Z := inject_Z;
  py_eqb := Qeq_bool;
  py_ltb := fun x y => negb (Qle_bool y x)
}.

(** ** Python exceptions and the state-and-exception monad *)

Inductive exn : Type :=
| KeyError (key : string)
| ZeroDivisionError
| NotImplementedError
| ValueError (msg : string)
| AttributeError.

Definition PyM (S A : Type) : Type := S -> S * (exn + A).

Definition ret {S A : Type} (a : A) : PyM S A := fun s => (s, inr a).

Definition bind {S A B : Type} (m : PyM S A) (k : A -> PyM S B) : PyM S B :=
  fun s => let (s', r) := m s in
           match r with
           | inl e => (s', inl e)
           | inr a => k a s'
           end.

Definition raise {S A : Type} (e : exn) : PyM S A := fun s => (s, inl e).

Definition lift {S A : Type} (r : exn + A) : PyM S A := fun s => (s, r).

Notation "x <- m ;; k" := (bind m (fun x => k))
  (at level 61, m at next level, right associativity).

(** [for x in l: body(x)] *)
Fixpoint for_ {S A : Type} (l : list A) (body : A -> PyM S unit) : PyM S unit :=
  match l with
  | [] => ret tt
  | x :: l' => _ <- body x ;; for_ l' body
  end.

(** ** Python dictionaries with string keys *)

Section Dict.
Context {V : Type}.

Definition dict : Type := list (string * V).

Definition keys (d : dict) : list string := map fst d.

Definition values (d : dict) : list V := map snd d.

Fixpoint dict_get (d : dict) (k : string) : option V :=
  match d with
  | [] => None
  | (k', v) :: r => if String.eqb k k' then Some v else dict_get r k
  end.

(** [d[k] = v]: an existing key keeps its position, a new key goes last. *)
Fixpoint dict_set (d : dict) (k : string) (v : V) : dict :=
  match d with
  | [] => [(k, v)]
  | (k', v') :: r => if String.eqb k k' then (k, v) :: r else (k', v') :: dict_set r k v
  end.

(** [d[k]] *)
Definition getitem (d : dict) (k : string) : exn + V :=
  match dict_get d k with
  | Some v => inr v
  | None => inl (KeyError k)
  end.

End Dict.

Arguments dict : clear implicits.

(** [l[s:]] for an integer [s] (Python slicing clamps the start). *)
Definition py_slice_from {A : Type} (l : list A) (s : Z) : list A :=
  let len := Z.of_nat (List.length l) in
  let start := if (s <? 0)%Z then Z.max 0 (len + s) else Z.min s len in
  skipn (Z.to_nat start) l.

(** ** limiters.py *)

Section Limiters.
Context {T : Type} `{PyNum T}.

Inductive Limiter : Type :=
(** the base class [Limiter] *)
| BaseLimiter
| StaticLimiter (upper_limit : T)
(** [window] is the list of (time, weight) samples, oldest first *)
| ChangeLimiter (offset : T) (window_length : Z) (window : list (Z * T)).

(** [ChangeLimiter.update]: append, then keep [window[-window_length:]];
    the other limiters have no [update] method. *)
Definition update (l : Limiter) (timestamp : Z) (value : T) : exn + Limiter :=
  match l with
  | ChangeLimiter offset window_length window =>
      inr (ChangeLimiter offset window_length
             (py_slice_from (window ++ [(timestamp, value)]) (- window_length)))
  | _ => inl AttributeError
  end.

(** The loop [for i in range(len(window) - 1):
      twma += (window[i + 1][0] - window[i][0]) * window[i][1]] *)
Fixpoint twma_loop (window : list (Z * T)) (twma : T) : T :=
  match window with
  | (t_i, v_i) :: ((t_next, _) :: _) as rest =>
      twma_loop rest (py_add twma (py_mul (py_of_Z (t_next - t_i)) v_i))
  | _ => twma
  end.

Definition limiter_surpassed_limit (l : Limiter) (timestamp : Z) (value : T)
  : exn + bool :=
  match l with
  | BaseLimiter => inl NotImplementedError
  | StaticLimiter upper_limit => inr (py_ltb upper_limit value)
  | ChangeLimiter offset _ window =>
      match window with
      | [] => inr false
      | (t_0, _) :: _ =>
          let twma := twma_loop window py_zero in
          (* twma / (timestamp - self.window[0][0]) *)
          if (timestamp - t_0 =? 0)%Z then inl ZeroDivisionError
          else let twma := py_div twma (py_of_Z (timestamp - t_0)) in
               inr (py_ltb (py_add twma offset) value)
      end
  end.

End Limiters.

Arguments Limiter : clear implicits.

(** ** pool.py *)

Section PoolOps.
Context {T : Type} `{PyNum T}.

Record Pool : Type := mkPool {
  assets : dict T;
  limiters : dict (list (Limiter T))
}.

(** [Pool(denoms)] *)
Definition new_pool (denoms : list string) : Pool :=
  {| assets := fold_left (fun d k => dict_set d k py_zero) denoms [];
     limiters := fold_left (fun d k => dict_set d k []) denoms [] |}.

Definition denoms (p : Pool) : list string := keys (assets p).

(** Python's [sum]: a left fold starting at 0 *)
Definition py_sum (l : list T) : T := fold_left py_add l py_zero.

Definition weight (p : Pool) (denom : string) : exn + T :=
  let total_assets := py_sum (values (assets p)) in
  if py_eqb total_assets py_zero then inr py_zero
  else match getitem (assets p) denom with
       | inl e => inl e
       | inr b => inr (py_div b total_assets)
       end.

(** [for limiter in self.limiters[denom]:
       if limiter.surpassed_limit(timestamp, self.weight(denom)): return True] *)
Fixpoint surpassed_limiters (p : Pool) (timestamp : Z) (denom : string)
    (ls : list (Limiter T)) : exn + bool :=
  match ls with
  | [] => inr false
  | l :: ls' =>
      match weight p denom with
      | inl e => inl e
      | inr w =>
          match limiter_surpassed_limit l timestamp w with
          | inl e => inl e
          | inr true => inr true
          | inr false => surpassed_limiters p timestamp denom ls'
          end
      end
  end.

Fixpoint surpassed_denoms (p : Pool) (timestamp : Z) (ds : list string)
  : exn + bool :=
  match ds with
  | [] => inr false
  | d :: ds' =>
      match getitem (limiters p) d with
      | inl e => inl e
      | inr ls =>
          match surpassed_limiters p timestamp d ls with
          | inl e => inl e
          | inr true => inr true
          | inr false => surpassed_denoms p timestamp ds'
          end
      end
  end.

Definition surpassed_limit_of (p : Pool) (timestamp : Z) : exn + bool :=
  surpassed_denoms p timestamp (denoms p).

(** [Pool.surpassed_limit] reads the pool and changes nothing *)
Definition surpassed_limit (timestamp : Z) : PyM Pool bool :=
  fun p => (p, surpassed_limit_of p timestamp).

Definition get_asset (denom : string) : PyM Pool T :=
  fun p => (p, getitem (assets p) denom).

Definition set_asset (denom : string) (v : T) : PyM Pool unit :=
  fun p => ({| assets := dict_set (assets p) denom v; limiters := limiters p |},
            inr tt).

(** [self.assets[denom] += x] and [self.assets[denom] -= x] *)
Definition iadd_asset (denom : string) (x : T) : PyM Pool unit :=
  b <- get_asset denom ;; set_asset denom (py_add b x).

Definition isub_asset (denom : string) (x : T) : PyM Pool unit :=
  b <- get_asset denom ;; set_asset denom (py_sub b x).

Definition join_pool (timestamp : Z) (amount : dict T) : PyM Pool bool :=
  _ <- for_ (keys amount) (fun denom =>
         b <- get_asset denom ;; a <- lift (getitem amount denom) ;;
         set_asset denom (py_add b a)) ;;
  s <- surpassed_limit timestamp ;;
  let ok := negb s in
  _ <- (if negb ok then
          for_ (keys amount) (fun denom =>
            b <- get_asset denom ;; a <- lift (getitem amount denom) ;;
            set_asset denom (py_sub b a))
        else ret tt) ;;
  ret ok.

(** The first loop of [exit_pool], threading the local copy of [amount]:
    [if self.assets[denom] < amount[denom]: amount[denom] = self.assets[denom]]
    then [self.assets[denom] -= amount[denom]]. *)
Fixpoint exit_loop (ks : list string) (amount : dict T) : PyM Pool (dict T) :=
  match ks with
  | [] => ret amount
  | denom :: ks' =>
      b <- get_asset denom ;; a <- lift (getitem amount denom) ;;
      let amount := if py_ltb b a then dict_set amount denom b else amount in
      b <- get_asset denom ;; a <- lift (getitem amount denom) ;;
      _ <- set_asset denom (py_sub b a) ;;
      exit_loop ks' amount
  end.

Definition exit_pool (timestamp : Z) (amount : dict T) : PyM Pool bool :=
  (* amount = amount.copy() *)
  amount <- exit_loop (keys amount) amount ;;
  s <- surpassed_limit timestamp ;;
  let ok := negb s in
  _ <- (if negb ok then
          for_ (keys amount) (fun denom =>
            b <- get_asset denom ;; a <- lift (getitem amount denom) ;;
            set_asset denom (py_add b a))
        else ret tt) ;;
  ret ok.

Definition swap (denom_in denom_out : string) (timestamp : Z) (amount : T)
  : PyM Pool bool :=
  _ <- iadd_asset denom_in amount ;;
  _ <- isub_asset denom_out amount ;;
  s <- surpassed_limit timestamp ;;
  let ok := negb s in
  _ <- (if negb ok then
          _ <- isub_asset denom_in amount ;; iadd_asset denom_out amount
        else ret tt) ;;
  ret ok.

Definition set_limiters (denom : string) (ls : list (Limiter T)) : PyM Pool unit :=
  fun p => match dict_get (assets p) denom with
           | None => (p, inl (ValueError ("Denom " ++ denom ++ " is not in the pool.")))
           | Some _ => ({| assets := assets p; limiters := dict_set (limiters p) denom ls |},
                        inr tt)
           end.

(** [self.assets[denom] = 0] *)
Definition add_new_denom (denom : string) : PyM Pool unit :=
  set_asset denom py_zero.

End PoolOps.

Arguments Pool : clear implicits.

(** ** project_point (rebalance_incentive.py) *)

Section Projection.
Context {T : Type} `{PyNum T}.

(** [np.dot(np.ones(n), m)], summed left to right *)
Definition dot_ones (m : list T) : T :=
  fold_left (fun acc x => py_add acc (py_mul py_one x)) m py_zero.

(** [m - ((m_dot_1 - 1) / n) * np.ones(n)]; numpy divides by [n = 0]
    without raising, and the result is then empty anyway. *)
Definition project_point (m : list T) : list T :=
  let n := Z.of_nat (List.length m) in
  let c := py_div (py_sub (dot_ones m) py_one) (py_of_Z n) in
  map (fun x => py_sub x (py_mul c py_one)) m.

End Projection.

(** * Specification-side definitions *)

Section SpecDefs.
Context {T : Type} `{PyNum T}.

(** The time-weighted sum as the spec words it: over the consecutive
    pairs of samples, [(t_{i+1} - t_i) * v_i], added from the oldest. *)
Definition twma_pairs_sum (window : list (Z * T)) : T :=
  fold_left (fun acc (pr : (Z * T) * (Z * T)) =>
               let '((t_i, v_i), (t_next, _)) := pr in
               py_add acc (py_mul (py_of_Z (t_next - t_i)) v_i))
            (combine window (tl window)) py_zero.

(** The spec's [sum(weight(a) for a in assets)], a left fold from [acc]. *)
Fixpoint sum_weights (p : Pool T) (ds : list string) (acc : T) : exn + T :=
  match ds with
  | [] => inr acc
  | d :: ds' =>
      match weight p d with
      | inl e => inl e
      | inr w => sum_weights p ds' (py_add acc w)
      end
  end.

Definition limiters_are (L : dict (list (Limiter T))) (p : Pool T) : Prop :=
  limiters p = L.

End SpecDefs.

(** What a state predicate needs to survive a computation, whatever its
    outcome. *)
Definition preserves {S A : Type} (I : S -> Prop) (m : PyM S A) : Prop :=
  forall s, I s -> I (fst (m s)).

(** Every balance of a pool is non-negative. *)
Definition all_nonneg (p : Pool Q) : Prop :=
  Forall (fun kv => 0 <= snd kv)%Q (assets p).

(** The common tail of [join_pool], [exit_pool] and [swap]. *)
Definition limit_tail {T : Type} `{PyNum T} (timestamp : Z) (rb : PyM (Pool T) unit)
  : PyM (Pool T) bool :=
  s <- surpassed_limit timestamp ;;
  let ok := negb s in
  _ <- (if negb ok then rb else ret tt) ;;
  ret ok.

(** [p'] has the keys, the limiters and (up to [==]) the balances of [p]. *)
Definition restores (p p' : Pool Q) : Prop :=
  keys (assets p') = keys (assets p) /\ limiters p' = limiters p /\
  forall k b, dict_get (assets p) k = Some b ->
    exists b', dict_get (assets p') k = Some b' /\ (b' == b)%Q.

(** ** Test inputs *)

(** A pool holding 0.1 of [x] and nothing of [y], with a static limit of
    0.5 on the weight of [x]. *)
Definition pool_x01 : Pool float :=
  {| assets := [("x"%string, 0.1%float); ("y"%string, 0%float)];
     limiters := [("x"%string, [StaticLimiter 0.5%float]); ("y"%string, [])] |}.

Definition pool_q : Pool Q :=
  {| assets := [("x"%string, 2%Q); ("y"%string, 1%Q)];
     limiters := [("x"%string, []); ("y"%string, [])] |}.

Definition pool_x5 : Pool float :=
  {| assets := [("x"%string, 5%float)]; limiters := [("x"%string, [])] |}.

Definition pool_abc : Pool float :=
  {| assets := [("a"%string, 0.1%float); ("b"%string, 0.2%float); ("c"%string, 0.3%float)];
     limiters := [("a"%string, []); ("b"%string, []); ("c"%string, [])] |}.

(** A pool of rationals holding 0.1 of [x] and of [y], with a static limit
    of 1/2 on the weight of [x]. *)
Definition pool_q_lim : Pool Q :=
  {| assets := [("x"%string, (1 # 10)%Q); ("y"%string, (1 # 10)%Q)];
     limiters := [("x"%string, [StaticLimiter (1 # 2)%Q]); ("y"%string, [])] |}.

Definition v_fifths : list Q := [(1 # 5)%Q; (1 # 5)%Q].
Definition v_halves : list Q := [(1 # 2)%Q; (1 # 2)%Q].

(** ** One step of [Simulation.run] (simulation/__init__.py) *)

Section Driver.
Context {T : Type} `{PyNum T}.

(** [random.choice([self.pool.join_pool, self.pool.exit_pool, self.pool.swap])] *)
Inductive Action : Type := JoinAction | ExitAction | SwapAction.

(** [{denom: min(amount, self.pool.assets[denom]) for denom in _denoms}];
    Python's [min(a, b)] is [b] when [b < a], else [a]. *)
Fixpoint exit_amounts (ds : list string) (amount : T) (acc : dict T) : PyM (Pool T) (dict T) :=
  match ds with
  | [] => ret acc
  | d :: ds' =>
      b <- get_asset d ;;
      exit_amounts ds' amount (dict_set acc d (if py_ltb b amount then b else amount))
  end.

(** The body of the inner loop of [Simulation.run] with its random draws
    as arguments: the [action], [denom], the drawn [amount], [denom_out]
    (a swap) and the sampled denoms (a join or exit).  The result of the
    pool operation is discarded. *)
Definition run_action (action : Action) (denom : string) (amount : T)
    (denom_out : string) (sample : list string) (timestamp : Z) : PyM (Pool T) unit :=
  (* if amount < 0: amount = 0 *)
  let amount := if py_ltb amount py_zero then py_zero else amount in
  match action with
  | SwapAction =>
      b_out <- get_asset denom_out ;;
      let amount := if py_ltb b_out amount then b_out else amount in
      _ <- swap denom denom_out timestamp amount ;; ret tt
  | JoinAction =>
      _ <- join_pool timestamp (fold_left (fun d k => dict_set d k amount) sample []) ;;
      ret tt
  | ExitAction =>
      amt <- exit_amounts sample amount [] ;;
      _ <- exit_pool timestamp amt ;; ret tt
  end.

End Driver.

(** The keys of the balances and the limiter registry of a pool: what the
    limit check reads besides the balances themselves. *)
Definition shape_is {T : Type} (K : list string) (L : dict (list (Limiter T))) (p : Pool T) : Prop :=
  keys (assets p) = K /\ limiters p = L.

(** Every asset of the pool is registered with an empty list of limiters. *)
Definition no_limits {T : Type} (p : Pool T) : Prop :=
  Forall (fun d => dict_get (limiters p) d = Some []) (keys (assets p)).

(** * Properties *)

(** ** Dictionary lemmas *)

Section DictFacts.
Context {V : Type}.

Lemma dict_get_set_same (d : dict V) k v : dict_get (dict_set d k v) k = Some v.
Proof.
  induction d as [|[k' v'] d IH]; simpl.
  - now rewrite String.eqb_refl.
  - destruct (String.eqb k k') eqn:E; simpl.
    + now rewrite String.eqb_refl.
    + now rewrite E.
Qed.

Lemma dict_get_set_other (d : dict V) k k' v :
  k' <> k -> dict_get (dict_set d k v) k' = dict_get d k'.
Proof.
  intros Hne. induction d as [|[k0 v0] d IH]; simpl.
  - destruct (String.eqb k' k) eqn:E; [apply String.eqb_eq in E; congruence | reflexivity].
  - destruct (String.eqb k k0) eqn:E; simpl.
    + apply String.eqb_eq in E; subst k0.
      destruct (String.eqb k' k) eqn:E'; [apply String.eqb_eq in E'; congruence | reflexivity].
    + now rewrite IH.
Qed.

Lemma keys_set_present (d : dict V) k v :
  dict_get d k <> None -> keys (dict_set d k v) = keys d.
Proof.
  induction d as [|[k0 v0] d IH]; simpl; intros Hk.
  - congruence.
  - destruct (String.eqb k k0) eqn:E; simpl.
    + apply String.eqb_eq in E; now subst.
    + now rewrite IH.
Qed.

Lemma keys_set_absent (d : dict V) k v :
  dict_get d k = None -> keys (dict_set d k v) = keys d ++ [k].
Proof.
  induction d as [|[k0 v0] d IH]; simpl; intros Hk.
  - reflexivity.
  - destruct (String.eqb k k0) eqn:E; simpl.
    + discriminate.
    + now rewrite IH.
Qed.

(** an entry found by [dict_get] is an entry of the list *)
Lemma dict_get_In (d : dict V) k v : dict_get d k = Some v -> In (k, v) d.
Proof.
  induction d as [|[k0 v0] d IH]; simpl; intros Hk; [discriminate|].
  destruct (String.eqb k k0) eqn:E.
  - apply String.eqb_eq in E; subst. left; congruence.
  - right; auto.
Qed.

Lemma Forall_dict_set (P : V -> Prop) (d : dict V) k v :
  Forall (fun kv => P (snd kv)) d -> P v -> Forall (fun kv => P (snd kv)) (dict_set d k v).
Proof.
  induction d as [|[k0 v0] d IH]; simpl; intros Hd Hv.
  - now constructor.
  - inversion Hd; subst. destruct (String.eqb k k0); constructor; auto.
Qed.

End DictFacts.

(** ** C1: rolling back a rejected join *)

(** C1 (defect). A join of 0.2 of [x] into [pool_x01] is rejected by the
    limiter (weight of [x] becomes 1 > 0.5), and the subtraction that undoes
    it leaves [x] at 0.30000000000000004 - 0.2 = 0.10000000000000003: the
    balance mapping after the rejected call differs from the one before. *)
Theorem join_pool_rejected_changes_balance :
  snd (join_pool 1 [("x"%string, 0.2%float)] pool_x01) = inr false /\
  dict_get (assets (fst (join_pool 1 [("x"%string, 0.2%float)] pool_x01))) "x"%string
    = Some 0.10000000000000003%float /\
  assets (fst (join_pool 1 [("x"%string, 0.2%float)] pool_x01)) <> assets pool_x01.
Proof.
  split; [vm_compute; reflexivity|].
  split; [vm_compute; reflexivity|].
  intro Heq.
  apply (f_equal (fun a => match dict_get a "x"%string with
                           | Some v => PrimFloat.eqb v 0.1%float
                           | None => false
                           end)) in Heq.
  vm_compute in Heq. discriminate.
Qed.

(** ** C2: unknown asset in a join *)

(** C2 (defect). On a fresh pool of [x] and [y], joining [{x: 1, z: 1}]
    adds 1 to [x], then raises [KeyError('z')] without undoing the
    addition: the error reaches the caller with [x] already changed. *)
Theorem join_pool_unknown_asset_partial :
  join_pool 1 [("x"%string, 1%float); ("z"%string, 1%float)]
    (new_pool ["x"%string; "y"%string])
  = ({| assets := [("x"%string, 1%float); ("y"%string, 0%float)];
        limiters := [("x"%string, []); ("y"%string, [])] |},
     inl (KeyError "z"%string)) /\
  assets (new_pool (T:=float) ["x"%string; "y"%string])
    = [("x"%string, 0%float); ("y"%string, 0%float)].
Proof. split; vm_compute; reflexivity. Qed.

(** ** Monad lemmas *)

Section MonadFacts.
Context {S : Type}.

Lemma bind_inr {A B : Type} (m : PyM S A) (k : A -> PyM S B) s s' b :
  bind m k s = (s', inr b) -> exists s1 a, m s = (s1, inr a) /\ k a s1 = (s', inr b).
Proof.
  unfold bind. destruct (m s) as [s1 [e|a]]; intros H; [discriminate|].
  eauto.
Qed.

Lemma preserves_bind {A B : Type} (I : S -> Prop) (m : PyM S A) (k : A -> PyM S B) :
  preserves I m -> (forall a, preserves I (k a)) -> preserves I (bind m k).
Proof.
  intros Hm Hk s Hs. unfold bind.
  specialize (Hm s Hs). destruct (m s) as [s1 [e|a]]; simpl in *; auto.
  now apply Hk.
Qed.

Lemma preserves_ret {A : Type} (I : S -> Prop) (a : A) : preserves I (ret a).
Proof. intros s Hs; exact Hs. Qed.

Lemma preserves_lift {A : Type} (I : S -> Prop) (r : exn + A) : preserves I (lift r).
Proof. intros s Hs; exact Hs. Qed.

Lemma preserves_for {A : Type} (I : S -> Prop) (l : list A) (body : A -> PyM S unit) :
  (forall x, preserves I (body x)) -> preserves I (for_ l body).
Proof.
  intros Hb. induction l as [|x l IH]; simpl.
  - apply preserves_ret.
  - apply preserves_bind; auto.
Qed.

End MonadFacts.

(** The common tail of [join_pool], [exit_pool] and [swap]: it only
    returns [True] from the state it starts in. *)
Lemma limit_tail_commit {T : Type} `{PyNum T} (timestamp : Z) (rb : PyM (Pool T) unit)
    (s1 s' : Pool T) :
  (s <- surpassed_limit timestamp ;;
   let ok := negb s in
   _ <- (if negb ok then rb else ret tt) ;;
   ret ok) s1 = (s', inr true) -> s' = s1.
Proof.
  unfold bind at 1, surpassed_limit.
  destruct (surpassed_limit_of s1 timestamp) as [e|[|]]; simpl.
  - discriminate.
  - unfold bind. destruct (rb s1) as [s2 [e|[]]]; simpl; discriminate.
  - cbv [bind ret]. congruence.
Qed.

(** ** C3: non-negative balances *)

Lemma getitem_Forall {V : Type} (P : V -> Prop) (d : dict V) k v :
  Forall (fun kv => P (snd kv)) d -> getitem d k = inr v -> P v.
Proof.
  unfold getitem. intros Hd Hk.
  destruct (dict_get d k) eqn:E; [|discriminate].
  injection Hk as <-. apply dict_get_In in E.
  rewrite Forall_forall in Hd. exact (Hd _ E).
Qed.

Lemma all_nonneg_set (p : Pool Q) d v :
  all_nonneg p -> (0 <= v)%Q ->
  all_nonneg {| assets := dict_set (assets p) d v; limiters := limiters p |}.
Proof. intros Hp Hv. now apply Forall_dict_set. Qed.

(** One pass of the clamping loop never makes a balance negative. *)
Lemma exit_loop_nonneg (ks : list string) (amount : dict Q) :
  preserves all_nonneg (exit_loop ks amount).
Proof.
  revert amount. induction ks as [|d ks IH]; intros amount s Hs; simpl.
  - exact Hs.
  - unfold bind at 1, get_asset.
    destruct (getitem (assets s) d) as [e|b] eqn:Eb; simpl; [exact Hs|].
    unfold bind at 1, lift.
    destruct (getitem amount d) as [e|a] eqn:Ea; simpl; [exact Hs|].
    unfold bind at 1. rewrite Eb.
    unfold bind at 1.
    destruct (negb (Qle_bool a b)) eqn:Eab.
    + unfold getitem at 1. rewrite dict_get_set_same.
      unfold bind at 1, set_asset. apply IH.
      apply all_nonneg_set; [exact Hs|]. lra.
    + rewrite Ea. unfold bind at 1, set_asset. apply IH.
      apply all_nonneg_set; [exact Hs|].
      apply negb_false_iff, Qle_bool_iff in Eab. lra.
Qed.

Lemma join_loop_nonneg (amount : dict Q) :
  Forall (fun kv => 0 <= snd kv)%Q amount ->
  preserves all_nonneg
    (for_ (keys amount) (fun denom =>
       b <- get_asset denom ;; a <- lift (getitem amount denom) ;;
       set_asset denom (py_add b a))).
Proof.
  intros Ha. apply preserves_for. intros d s Hs.
  unfold bind, get_asset, lift.
  destruct (getitem (assets s) d) as [e|b] eqn:Eb; simpl; [exact Hs|].
  destruct (getitem amount d) as [e|a] eqn:Ea; simpl; [exact Hs|].
  apply all_nonneg_set; [exact Hs|].
  pose proof (getitem_Forall _ _ _ _ Hs Eb) as Hb.
  pose proof (getitem_Forall _ _ _ _ Ha Ea) as Ha'.
  simpl in *. lra.
Qed.

(** Non-negativity of concrete rationals, decided by computation. *)
Ltac nonneg_by_compute :=
  repeat constructor; simpl; apply (proj1 (Qle_bool_iff _ _)); reflexivity.

(** C3 (counterexample). [swap] does not clamp: on a fresh pool of [x] and
    [y] without limiters, swapping 1 of [x] for 1 of [y] commits and leaves
    [y] at -1. *)
Lemma swap_commits_negative_balance :
  ~ (forall (p : Pool Q) denom_in denom_out t a,
       all_nonneg p -> snd (swap denom_in denom_out t a p) = inr true ->
       all_nonneg (fst (swap denom_in denom_out t a p))).
Proof.
  intros H.
  specialize (H (new_pool ["x"%string; "y"%string]) "x"%string "y"%string 1%Z 1%Q).
  assert (Hn : all_nonneg (fst (swap "x"%string "y"%string 1%Z 1%Q
                                  (new_pool ["x"%string; "y"%string])))).
  { apply H; [unfold all_nonneg; nonneg_by_compute | vm_compute; reflexivity]. }
  vm_compute in Hn. inversion Hn as [|? ? _ Hy]; subst.
  inversion Hy as [|? ? Hneg _]; subst.
  exact (Hneg eq_refl).
Qed.

(** C3 (amended). With exact arithmetic, a committed [exit_pool] (any
    amounts) and a committed [join_pool] whose amounts are all >= 0 leave
    every balance >= 0 when every balance was >= 0 before. *)
Theorem committed_exit_join_nonneg :
  (forall (p p' : Pool Q) t amount,
     all_nonneg p -> exit_pool t amount p = (p', inr true) -> all_nonneg p') /\
  (forall (p p' : Pool Q) t amount,
     all_nonneg p -> Forall (fun kv => 0 <= snd kv)%Q amount ->
     join_pool t amount p = (p', inr true) -> all_nonneg p').
Proof.
  split.
  - intros p p' t amount Hp Hx. unfold exit_pool in Hx.
    apply bind_inr in Hx as (s1 & a & Hloop & Htail).
    apply limit_tail_commit in Htail. subst p'.
    pose proof (exit_loop_nonneg (keys amount) amount p Hp) as Hs.
    now rewrite Hloop in Hs.
  - intros p p' t amount Hp Ha Hx. unfold join_pool in Hx.
    apply bind_inr in Hx as (s1 & a & Hloop & Htail).
    apply limit_tail_commit in Htail. subst p'.
    pose proof (join_loop_nonneg amount Ha p Hp) as Hs.
    now rewrite Hloop in Hs.
Qed.

Lemma committed_exit_join_nonneg_witness :
  all_nonneg (fst (exit_pool 1 [("x"%string, 3%Q)] pool_q)) /\
  all_nonneg (fst (join_pool 1 [("y"%string, 2%Q)] pool_q)).
Proof.
  split.
  - apply (proj1 committed_exit_join_nonneg pool_q _ 1%Z [("x"%string, 3%Q)]).
    + unfold all_nonneg; nonneg_by_compute.
    + vm_compute; reflexivity.
  - apply (proj2 committed_exit_join_nonneg pool_q _ 1%Z [("y"%string, 2%Q)]).
    + unfold all_nonneg; nonneg_by_compute.
    + nonneg_by_compute.
    + vm_compute; reflexivity.
Defined.

(** ** C4: adding an asset *)

(** C4 (counterexample). Adding [x] to a pool that already holds 5 of [x]
    raises nothing: it returns normally and resets the balance of [x] to 0. *)
Lemma add_new_denom_present_resets :
  dict_get (assets pool_x5) "x"%string = Some 5%float /\
  add_new_denom "x"%string pool_x5
  = ({| assets := [("x"%string, 0%float)]; limiters := [("x"%string, [])] |}, inr tt).
Proof. split; vm_compute; reflexivity. Qed.

(** C4 (amended). [add_new_denom d] never raises and sets the balance of
    [d] to 0, leaving every other balance as it was.  An absent [d] is
    appended after the existing assets; a present [d] keeps its place and
    its limiter list: its balance is silently reset. *)
Theorem add_new_denom_sets_zero {T : Type} `{PyNum T} (p : Pool T) (d : string) :
  snd (add_new_denom d p) = inr tt /\
  dict_get (assets (fst (add_new_denom d p))) d = Some py_zero /\
  (forall k, k <> d ->
     dict_get (assets (fst (add_new_denom d p))) k = dict_get (assets p) k) /\
  (dict_get (assets p) d = None ->
     keys (assets (fst (add_new_denom d p))) = keys (assets p) ++ [d]) /\
  (dict_get (assets p) d <> None ->
     keys (assets (fst (add_new_denom d p))) = keys (assets p) /\
     limiters (fst (add_new_denom d p)) = limiters p).
Proof.
  unfold add_new_denom, set_asset; simpl.
  split; [reflexivity|].
  split; [apply dict_get_set_same|].
  split; [intros k Hk; now apply dict_get_set_other|].
  split; [apply keys_set_absent|].
  intros Hd. split; [now apply keys_set_present | reflexivity].
Qed.

(** ** C5 and C10: the change limiter *)

Section ChangeLimiterFacts.
Context {T : Type} `{PyNum T}.

Lemma twma_loop_pairs (window : list (Z * T)) (acc : T) :
  twma_loop window acc =
  fold_left (fun acc (pr : (Z * T) * (Z * T)) =>
               let '((t_i, v_i), (t_next, _)) := pr in
               py_add acc (py_mul (py_of_Z (t_next - t_i)) v_i))
            (combine window (tl window)) acc.
Proof.
  revert acc. induction window as [|[t_i v_i] rest IH]; intros acc; [reflexivity|].
  destruct rest as [|[t_next v_next] rest']; [reflexivity|].
  transitivity (twma_loop ((t_next, v_next) :: rest')
                  (py_add acc (py_mul (py_of_Z (t_next - t_i)) v_i))); [reflexivity|].
  rewrite IH. reflexivity.
Qed.

(** Off the degenerate query time, [ChangeLimiter.surpassed_limit] is the
    spec's formula: false on an empty window, otherwise
    [value > sum / (timestamp - t_0) + offset]. *)
Lemma change_surpassed_formula (offset : T) (window_length : Z)
    (window : list (Z * T)) (timestamp : Z) (value : T) :
  (window = [] ->
     limiter_surpassed_limit (ChangeLimiter offset window_length window) timestamp value
     = inr false) /\
  (forall t_0 v_0 rest, window = (t_0, v_0) :: rest -> timestamp <> t_0 ->
     limiter_surpassed_limit (ChangeLimiter offset window_length window) timestamp value
     = inr (py_ltb (py_add (py_div (twma_pairs_sum window) (py_of_Z (timestamp - t_0)))
                           offset) value)).
Proof.
  split.
  - intros ->. reflexivity.
  - intros t_0 v_0 rest -> Hne. simpl.
    destruct (Z.eqb_spec (timestamp - t_0) 0) as [E|E]; [lia|].
    unfold twma_pairs_sum. rewrite <- twma_loop_pairs. reflexivity.
Qed.

End ChangeLimiterFacts.

(** With exact arithmetic and a single sample, off the degenerate query
    time, the limit is surpassed iff [value > offset]. *)
Lemma change_single_sample_Q (offset : Q) (window_length : Z) (t_0 : Z) (v_0 : Q)
    (timestamp : Z) (value : Q) :
  timestamp <> t_0 ->
  limiter_surpassed_limit (ChangeLimiter offset window_length [(t_0, v_0)]) timestamp value
  = inr (negb (Qle_bool value offset)).
Proof.
  intros Hne. simpl.
  destruct (Z.eqb_spec (timestamp - t_0) 0) as [E|E]; [lia|].
  do 2 f_equal. apply Qleb_comp; [reflexivity|].
  unfold Qdiv. rewrite Qmult_0_l. apply Qplus_0_l.
Qed.

(** C5 (defect). One sample [(5, 0.5)], offset 0.1, queried at time 5
    with weight 1.0: the code raises [ZeroDivisionError] (the denominator
    [5 - 5] is 0) where the spec has TWMA = 0 and the answer [1.0 > 0.1]. *)
Theorem change_limiter_single_sample_at_t0 :
  limiter_surpassed_limit (ChangeLimiter 0.1%float 10 [(5%Z, 0.5%float)]) 5 1.0%float
  = inl ZeroDivisionError /\
  PrimFloat.ltb 0.1%float 1.0%float = true.
Proof. split; vm_compute; reflexivity. Qed.

(** C10. Whatever the window's other samples, a query at the timestamp of
    the oldest sample divides by zero and raises [ZeroDivisionError]; in
    particular, recording a sample into an empty window (of non-negative
    length) and querying at the same timestamp raises. *)
Theorem change_limiter_zero_span_raises {T : Type} `{PyNum T}
    (offset : T) (window_length : Z) (t_0 : Z) (v_0 value : T) (rest : list (Z * T)) :
  limiter_surpassed_limit (ChangeLimiter offset window_length ((t_0, v_0) :: rest)) t_0 value
  = inl ZeroDivisionError /\
  ((0 <= window_length)%Z ->
   exists l, update (ChangeLimiter offset window_length []) t_0 v_0 = inr l /\
             limiter_surpassed_limit l t_0 value = inl ZeroDivisionError).
Proof.
  split.
  - unfold limiter_surpassed_limit. now rewrite Z.sub_diag.
  - intros Hwl. eexists; split; [reflexivity|].
    unfold py_slice_from. rewrite app_nil_l.
    change (Z.of_nat (List.length [(t_0, v_0)])) with 1%Z.
    replace (Z.to_nat (if (- window_length <? 0)%Z then Z.max 0 (1 + - window_length)
                       else Z.min (- window_length) 1)) with 0%nat
      by (destruct (Z.ltb_spec (- window_length) 0); lia).
    unfold limiter_surpassed_limit. cbn [skipn]. destruct (Z.eqb_spec (t_0 - t_0) 0); [reflexivity | lia].
Qed.

Lemma change_limiter_zero_span_raises_witness :
  exists l, update (ChangeLimiter 0.1%float 10 []) 5 0.5%float = inr l /\
            limiter_surpassed_limit l 5 1.0%float = inl ZeroDivisionError.
Proof.
  apply (proj2 (change_limiter_zero_span_raises 0.1%float 10 5 0.5%float 1.0%float [])).
  lia.
Defined.

(** ** C6: the exit clamp *)

Lemma getitem_set_pool_same (p : Pool Q) d v :
  getitem (assets {| assets := dict_set (assets p) d v; limiters := limiters p |}) d = inr v.
Proof. unfold getitem; simpl. now rewrite dict_get_set_same. Qed.

(** C6. Exiting [{A: X}] with [X] above the balance [b] of [A] clamps the
    amount to [b] before the limits are checked.  On commit [A] is left at
    [b - b = 0]; on a limit violation the clamped [b] (not [X]) is added
    back, leaving [A] at [(b - b) + b = b]; if a limiter raises, [A] is left
    at 0.  The other balances and the limiters are untouched. *)
Theorem exit_pool_clamps (p : Pool Q) (t : Z) (A : string) (X b : Q) :
  dict_get (assets p) A = Some b -> (b < X)%Q ->
  limiters (fst (exit_pool t [(A, X)] p)) = limiters p /\
  (forall k, k <> A ->
     dict_get (assets (fst (exit_pool t [(A, X)] p))) k = dict_get (assets p) k) /\
  match snd (exit_pool t [(A, X)] p) with
  | inr true => dict_get (assets (fst (exit_pool t [(A, X)] p))) A = Some (b - b)%Q
  | inr false => dict_get (assets (fst (exit_pool t [(A, X)] p))) A = Some (b - b + b)%Q
  | inl _ => dict_get (assets (fst (exit_pool t [(A, X)] p))) A = Some (b - b)%Q
  end /\
  (b - b == 0)%Q /\ (b - b + b == b)%Q.
Proof.
  intros HA HbX.
  assert (Hlt : py_ltb b X = true).
  { simpl. apply negb_true_iff. destruct (Qle_bool X b) eqn:E; [|reflexivity].
    apply Qle_bool_iff in E. lra. }
  assert (HgA : getitem (assets p) A = inr b) by (unfold getitem; now rewrite HA).
  set (p1 := {| assets := dict_set (assets p) A (b - b)%Q; limiters := limiters p |}).
  assert (Hloop : exit_loop [A] [(A, X)] p = (p1, inr [(A, b)])).
  { simpl exit_loop. unfold bind at 1, get_asset. rewrite HgA.
    unfold bind at 1, lift, getitem at 1. simpl dict_get. rewrite String.eqb_refl.
    unfold bind at 1. rewrite HgA. simpl in Hlt. rewrite Hlt.
    unfold bind, getitem, set_asset, ret. simpl. rewrite String.eqb_refl.
    reflexivity. }
  assert (Hex : exit_pool t [(A, X)] p =
    match surpassed_limit_of p1 t with
    | inl e => (p1, inl e)
    | inr true =>
        ({| assets := dict_set (assets p1) A (b - b + b)%Q; limiters := limiters p |},
         inr false)
    | inr false => (p1, inr true)
    end).
  { unfold exit_pool. unfold bind at 1. simpl keys. rewrite Hloop.
    unfold bind at 1, surpassed_limit.
    destruct (surpassed_limit_of p1 t) as [e|[|]]; [reflexivity| |reflexivity].
    simpl. unfold bind at 1, get_asset.
    assert (Hg1 : getitem (assets p1) A = inr (b - b)%Q) by (unfold getitem; simpl; now rewrite dict_get_set_same).
    cbv [bind lift set_asset ret]. rewrite Hg1. unfold getitem; simpl. rewrite String.eqb_refl. reflexivity. }
  rewrite Hex.
  split; [|split; [|split; [|split]]].
  - destruct (surpassed_limit_of p1 t) as [e|[|]]; reflexivity.
  - intros k Hk.
    destruct (surpassed_limit_of p1 t) as [e|[|]]; simpl;
      rewrite ?dict_get_set_other by exact Hk; reflexivity.
  - destruct (surpassed_limit_of p1 t) as [e|[|]]; simpl;
      now rewrite ?dict_get_set_same.
  - lra.
  - lra.
Qed.

Lemma exit_pool_clamps_witness :
  limiters (fst (exit_pool 1 [("x"%string, 5%Q)] pool_q)) = limiters pool_q /\
  (forall k, k <> "x"%string ->
     dict_get (assets (fst (exit_pool 1 [("x"%string, 5%Q)] pool_q))) k
     = dict_get (assets pool_q) k) /\
  match snd (exit_pool 1 [("x"%string, 5%Q)] pool_q) with
  | inr true => dict_get (assets (fst (exit_pool 1 [("x"%string, 5%Q)] pool_q))) "x"%string
                = Some (2 - 2)%Q
  | inr false => dict_get (assets (fst (exit_pool 1 [("x"%string, 5%Q)] pool_q))) "x"%string
                 = Some (2 - 2 + 2)%Q
  | inl _ => dict_get (assets (fst (exit_pool 1 [("x"%string, 5%Q)] pool_q))) "x"%string
             = Some (2 - 2)%Q
  end /\
  (2 - 2 == 0)%Q /\ (2 - 2 + 2 == 2)%Q.
Proof.
  apply (exit_pool_clamps pool_q 1 "x"%string 5%Q 2%Q); [reflexivity | reflexivity].
Defined.

(** ** C8: the pool never touches its limiters *)

Section KeepLimiters.
Context {T : Type} `{PyNum T}.

Lemma get_asset_keeps (L : dict (list (Limiter T))) d : preserves (limiters_are L) (get_asset d).
Proof. intros s Hs; exact Hs. Qed.

Lemma set_asset_keeps (L : dict (list (Limiter T))) d v : preserves (limiters_are L) (set_asset d v).
Proof. intros s Hs; exact Hs. Qed.

Lemma surpassed_limit_keeps (L : dict (list (Limiter T))) t : preserves (limiters_are L) (surpassed_limit t).
Proof. intros s Hs; exact Hs. Qed.

End KeepLimiters.

(** Walks a pool operation, closing each step that keeps the limiters. *)
Ltac keep_limiters :=
  repeat (cbv zeta;
    first
    [ apply preserves_bind; [| intros ?]
    | apply preserves_for; intros ?
    | apply preserves_ret
    | apply preserves_lift
    | apply get_asset_keeps
    | apply set_asset_keeps
    | apply surpassed_limit_keeps
    | match goal with |- preserves _ (if ?c then _ else _) => destruct c end ]).

Lemma exit_loop_keeps {T : Type} `{PyNum T} (L : dict (list (Limiter T))) ks amount :
  preserves (limiters_are L) (exit_loop ks amount).
Proof.
  revert amount; induction ks as [|d ks IH]; intros amount; simpl.
  - apply preserves_ret.
  - keep_limiters. apply IH.
Qed.

(** C8. [join_pool], [exit_pool] and [swap], whatever they return or raise,
    leave the limiter registry exactly as it was (so every [ChangeLimiter]
    window, empty or not, is unchanged: [update] is never called), and the
    limit evaluation [surpassed_limit] changes nothing at all. *)
Theorem pool_ops_keep_limiters {T : Type} `{PyNum T} (p : Pool T) (t : Z)
    (amount : dict T) (denom_in denom_out : string) (a : T) :
  limiters (fst (join_pool t amount p)) = limiters p /\
  limiters (fst (exit_pool t amount p)) = limiters p /\
  limiters (fst (swap denom_in denom_out t a p)) = limiters p /\
  fst (surpassed_limit t p) = p.
Proof.
  split; [|split; [|split]].
  - assert (Hk : preserves (limiters_are (limiters p)) (join_pool t amount)).
    { unfold join_pool. keep_limiters. }
    exact (Hk p eq_refl).
  - assert (Hk : preserves (limiters_are (limiters p)) (exit_pool t amount)).
    { unfold exit_pool. keep_limiters. apply exit_loop_keeps. }
    exact (Hk p eq_refl).
  - assert (Hk : preserves (limiters_are (limiters p)) (swap denom_in denom_out t a)).
    { unfold swap, iadd_asset, isub_asset. keep_limiters. }
    exact (Hk p eq_refl).
  - reflexivity.
Qed.

(** ** C7: weights *)

(** Every key of a dictionary finds its own entry. *)
Lemma dict_get_keys {V : Type} (l : dict V) :
  NoDup (keys l) -> map (dict_get l) (keys l) = map Some (values l).
Proof.
  induction l as [|[k v] l IH]; simpl; intros Hnd; [reflexivity|].
  inversion Hnd as [|? ? Hk Hnd']; subst.
  rewrite String.eqb_refl. f_equal.
  rewrite <- IH by exact Hnd'. apply map_ext_in. intros k' Hk'.
  destruct (String.eqb k' k) eqn:E; [|reflexivity].
  apply String.eqb_eq in E; subst. contradiction.
Qed.

(** [fold_left Qplus] from any start *)
Lemma fold_Qplus_shift (vs : list Q) (x : Q) :
  (fold_left Qplus vs x == x + fold_left Qplus vs 0)%Q.
Proof.
  revert x. induction vs as [|v vs IH]; intros x; simpl; [ring|].
  rewrite (IH (x + v)%Q), (IH (0 + v)%Q). ring.
Qed.

Lemma fold_Qdiv_sum (vs : list Q) (c acc : Q) :
  ~ (c == 0)%Q ->
  (fold_left (fun a v => a + v / c) vs acc == acc + fold_left Qplus vs 0 / c)%Q.
Proof.
  intros Hc. revert acc. induction vs as [|v vs IH]; intros acc; simpl.
  - unfold Qdiv. ring.
  - rewrite IH, (fold_Qplus_shift vs (0 + v)%Q). field. exact Hc.
Qed.

Lemma sum_weights_values (p : Pool Q) (l : dict Q) (acc : Q) :
  ~ (py_sum (values (assets p)) == 0)%Q ->
  map (dict_get (assets p)) (keys l) = map Some (values l) ->
  sum_weights p (keys l) acc
  = inr (fold_left (fun a v => a + v / py_sum (values (assets p))) (values l) acc)%Q.
Proof.
  intros Ht. revert acc. induction l as [|[k v] l IH]; intros acc Hl; simpl; [reflexivity|].
  simpl in Hl. injection Hl as Hk Hl.
  unfold weight, getitem. rewrite Hk.
  destruct (py_eqb (py_sum (values (assets p))) py_zero) eqn:E.
  - simpl in E. apply Qeq_bool_iff in E. contradiction.
  - now apply IH.
Qed.

(** C7 (counterexample). With Python floats, balances 0.1, 0.2 and 0.3
    (total 0.6000000000000001 > 0) give weights whose sum is
    0.9999999999999999, not 1. *)
Lemma float_weights_sum_not_one :
  PrimFloat.ltb 0%float (py_sum (values (assets pool_abc))) = true /\
  sum_weights pool_abc (denoms pool_abc) py_zero = inr 0.9999999999999999%float /\
  sum_weights pool_abc (denoms pool_abc) py_zero <> inr 1%float.
Proof.
  split; [vm_compute; reflexivity|].
  split; [vm_compute; reflexivity|].
  intros Heq.
  apply (f_equal (fun r : exn + float => match r with
                                         | inr v => PrimFloat.eqb v 1%float
                                         | inl _ => false
                                         end)) in Heq.
  vm_compute in Heq. discriminate.
Qed.

(** C7 (amended). In exact arithmetic, when the balances sum to a
    positive total, the weights [balance / total] of the pool's assets sum
    to 1; in any arithmetic, when the computed total equals 0, [weight]
    returns 0 for every asset. *)
Theorem weights_sum_to_one :
  (forall p : Pool Q, NoDup (denoms p) -> (0 < py_sum (values (assets p)))%Q ->
     exists s, sum_weights p (denoms p) 0%Q = inr s /\ (s == 1)%Q) /\
  (forall (T : Type) (N : PyNum T) (p : Pool T) (d : string),
     py_eqb (py_sum (values (assets p))) py_zero = true -> weight p d = inr py_zero).
Proof.
  split.
  - intros p Hnd Hpos.
    assert (Ht : ~ (py_sum (values (assets p)) == 0)%Q).
    { intros E. rewrite E in Hpos. apply (Qlt_irrefl 0). exact Hpos. }
    eexists; split.
    + apply sum_weights_values; [exact Ht|]. now apply dict_get_keys.
    + rewrite fold_Qdiv_sum by exact Ht.
      unfold py_sum in *; simpl in *. field. exact Ht.
  - intros T N p d E. unfold weight. now rewrite E.
Qed.

Lemma weights_sum_to_one_witness :
  (exists s, sum_weights pool_q (denoms pool_q) 0%Q = inr s /\ (s == 1)%Q) /\
  weight (new_pool (T:=float) ["x"%string]) "x"%string = inr 0%float.
Proof.
  split.
  - apply (proj1 weights_sum_to_one pool_q).
    + repeat constructor; simpl; intuition discriminate.
    + reflexivity.
  - apply (proj2 weights_sum_to_one float float_num). vm_compute. reflexivity.
Defined.

(** ** C9: projection onto the plane [sum(x) = 1] *)

Lemma dot_ones_Q (m : list Q) : (dot_ones m == py_sum m)%Q.
Proof.
  unfold dot_ones, py_sum; simpl.
  assert (Hg : forall acc acc', (acc == acc')%Q ->
            (fold_left (fun a x => a + 1 * x) m acc == fold_left Qplus m acc')%Q).
  { induction m as [|x m IH]; intros acc acc' E; simpl; [exact E|].
    apply IH. rewrite E. ring. }
  apply Hg. reflexivity.
Qed.

Lemma sum_map_shift (m : list Q) (c acc : Q) :
  (fold_left Qplus (map (fun x => x - c * 1) m) acc
   == acc + fold_left Qplus m 0 - inject_Z (Z.of_nat (List.length m)) * c)%Q.
Proof.
  revert acc. induction m as [|x m IH]; intros acc; cbn [map fold_left List.length].
  - simpl. ring.
  - rewrite IH, (fold_Qplus_shift m (0 + x)%Q).
    rewrite Nat2Z.inj_succ, <- Z.add_1_r, inject_Z_plus. ring.
Qed.

Lemma Forall2_map_Qeq (g : Q -> Q) (m : list Q) :
  (forall x, (g x == x)%Q) -> Forall2 Qeq (map g m) m.
Proof. intros Hg. induction m as [|x m IH]; simpl; constructor; auto. Qed.

Lemma Forall2_map2_Qeq (g h : Q -> Q) (m : list Q) :
  (forall x, (g x == h x)%Q) -> Forall2 Qeq (map g m) (map h m).
Proof. intros Hg. induction m as [|x m IH]; simpl; constructor; auto. Qed.

(** C9 (counterexample). The empty vector projects to the empty vector,
    whose sum is 0, not 1; and with floats [[0.8, 0.9]] projects to
    [[0.44999999999999996, 0.5499999999999999]], whose sum is
    0.9999999999999999. *)
Lemma project_point_off_plane :
  project_point (T:=Q) [] = [] /\ ~ (py_sum (T:=Q) [] == 1)%Q /\
  project_point [0.8%float; 0.9%float] = [0.44999999999999996%float; 0.5499999999999999%float] /\
  py_sum (project_point [0.8%float; 0.9%float]) = 0.9999999999999999%float /\
  PrimFloat.eqb 0.9999999999999999%float 1%float = false.
Proof.
  split; [reflexivity|].
  split; [unfold py_sum; simpl; intros E; discriminate E|].
  split; [vm_compute; reflexivity|].
  split; vm_compute; reflexivity.
Qed.

(** C9 (amended). [project_point m] is [m - ((sum(m) - 1) / n) * ones]
    for [n = len(m)].  In exact arithmetic and for [n >= 1] the result sums
    to 1, every vector that sums to 1 is a fixed point, and projecting
    twice is projecting once.  With floats, [[0.5, 0.5]] and [[0.2, 0.2]]
    both project to exactly [[0.5, 0.5]]. *)
Theorem project_point_onto_plane :
  (forall m : list Q,
     Forall2 Qeq (project_point m)
       (map (fun x => x - (py_sum m - 1) / inject_Z (Z.of_nat (List.length m)) * 1) m)%Q) /\
  (forall m : list Q, m <> [] -> (py_sum (project_point m) == 1)%Q) /\
  (forall m : list Q, (py_sum m == 1)%Q -> Forall2 Qeq (project_point m) m) /\
  (forall m : list Q, m <> [] ->
     Forall2 Qeq (project_point (project_point m)) (project_point m)) /\
  project_point [0.5%float; 0.5%float] = [0.5%float; 0.5%float] /\
  project_point [0.2%float; 0.2%float] = [0.5%float; 0.5%float].
Proof.
  assert (Hsum : forall m : list Q, m <> [] -> (py_sum (project_point m) == 1)%Q).
  { intros m Hm. unfold project_point. simpl py_sub; simpl py_mul; simpl py_div.
    unfold py_sum at 1; simpl py_add; simpl py_zero.
    rewrite sum_map_shift, dot_ones_Q.
    assert (Hn : ~ (inject_Z (Z.of_nat (List.length m)) == 0)%Q).
    { destruct m as [|x m]; [congruence|]. simpl List.length.
      intros E. unfold Qeq in E. simpl in E. lia. }
    unfold py_sum; simpl. field. exact Hn. }
  assert (Hfix : forall m : list Q, (py_sum m == 1)%Q -> Forall2 Qeq (project_point m) m).
  { intros m Hm. unfold project_point. apply Forall2_map_Qeq. intros x.
    simpl. rewrite dot_ones_Q, Hm. unfold Qdiv. ring. }
  split; [|split; [exact Hsum|split; [exact Hfix|split]]].
  - intros m. unfold project_point. apply Forall2_map2_Qeq. intros x.
    simpl. now rewrite dot_ones_Q.
  - intros m Hm. apply Hfix, Hsum, Hm.
  - split; vm_compute; reflexivity.
Qed.

Lemma project_point_onto_plane_witness :
  (py_sum (project_point v_fifths) == 1)%Q /\
  Forall2 Qeq (project_point v_halves) v_halves /\
  Forall2 Qeq (project_point (project_point v_fifths)) (project_point v_fifths).
Proof.
  split; [|split].
  - apply (proj1 (proj2 project_point_onto_plane)). discriminate.
  - apply (proj1 (proj2 (proj2 project_point_onto_plane))). reflexivity.
  - apply (proj1 (proj2 (proj2 (proj2 project_point_onto_plane)))). discriminate.
Defined.

(** * Further properties of the code *)

(** ** Dictionaries built key by key *)

Section DictMore.
Context {V : Type}.

Lemma in_keys_get (d : dict V) k : In k (keys d) <-> dict_get d k <> None.
Proof.
  induction d as [|[k0 v0] d IH]; simpl.
  - split; [intros []|congruence].
  - destruct (String.eqb k k0) eqn:E.
    + apply String.eqb_eq in E; subst. split; [discriminate|auto].
    + rewrite <- IH. split; [intros [->|H]; [now rewrite String.eqb_refl in E|exact H] | auto].
Qed.

Lemma NoDup_keys_set (d : dict V) k v : NoDup (keys d) -> NoDup (keys (dict_set d k v)).
Proof.
  intros Hnd. destruct (dict_get d k) eqn:E.
  - rewrite keys_set_present by congruence. exact Hnd.
  - rewrite keys_set_absent by exact E.
    apply NoDup_app; [exact Hnd | repeat constructor; intros [] |].
    intros x Hx [<-|[]]. apply in_keys_get in Hx. contradiction.
Qed.

Lemma dict_set_absent (d : dict V) k v : dict_get d k = None -> dict_set d k v = d ++ [(k, v)].
Proof.
  induction d as [|[k0 v0] d IH]; simpl; intros Hk; [reflexivity|].
  destruct (String.eqb k k0); [discriminate|]. now rewrite IH.
Qed.

(** [{k: v for k in ks}] on top of [acc] *)
Lemma fold_set_get (ks : list string) (v : V) (acc : dict V) k :
  dict_get (fold_left (fun d k => dict_set d k v) ks acc) k
  = if existsb (String.eqb k) ks then Some v else dict_get acc k.
Proof.
  revert acc. induction ks as [|x ks IH]; intros acc; simpl; [reflexivity|].
  rewrite IH. destruct (String.eqb k x) eqn:E; simpl.
  - apply String.eqb_eq in E; subst. rewrite dict_get_set_same. now destruct existsb.
  - rewrite dict_get_set_other; [reflexivity|]. intros ->. now rewrite String.eqb_refl in E.
Qed.

Lemma fold_set_distinct (ks : list string) (v : V) (acc : dict V) :
  NoDup ks -> (forall k, In k ks -> dict_get acc k = None) ->
  fold_left (fun d k => dict_set d k v) ks acc = acc ++ map (fun k => (k, v)) ks.
Proof.
  revert acc. induction ks as [|x ks IH]; intros acc Hnd Hacc; simpl.
  - now rewrite app_nil_r.
  - inversion Hnd as [|? ? Hx Hnd']; subst.
    rewrite IH; [|exact Hnd'|].
    + rewrite dict_set_absent by (apply Hacc; now left). now rewrite <- app_assoc.
    + intros k Hk. rewrite dict_get_set_other by (intros ->; contradiction).
      apply Hacc. now right.
Qed.

Lemma NoDup_keys_fold (ks : list string) (v : V) (acc : dict V) :
  NoDup (keys acc) -> NoDup (keys (fold_left (fun d k => dict_set d k v) ks acc)).
Proof.
  revert acc. induction ks as [|x ks IH]; intros acc Hnd; simpl; [exact Hnd|].
  apply IH, NoDup_keys_set, Hnd.
Qed.

End DictMore.

Lemma existsb_eqb_In (ks : list string) k : existsb (String.eqb k) ks = true <-> In k ks.
Proof.
  rewrite existsb_exists. split.
  - intros (x & Hx & E). apply String.eqb_eq in E. now subst.
  - intros Hk. exists k. split; [exact Hk | apply String.eqb_refl].
Qed.

(** ** [Pool(denoms)] *)

(** X1. [Pool(denoms)] registers every listed denom once, in the order of
    its first occurrence: a repeated denom collapses to one entry.  Each
    registered denom has balance 0 and an empty limiter list, no other
    denom has an entry, and for distinct denoms [denoms()] gives the list
    back. *)
Theorem new_pool_registers_denoms {T : Type} `{PyNum T} (ds : list string) :
  NoDup (denoms (new_pool ds)) /\
  (forall k, In k (denoms (new_pool ds)) <-> In k ds) /\
  (forall k, dict_get (assets (new_pool ds)) k
             = if existsb (String.eqb k) ds then Some py_zero else None) /\
  (forall k, dict_get (limiters (new_pool ds)) k
             = if existsb (String.eqb k) ds then Some [] else None) /\
  (NoDup ds -> denoms (new_pool ds) = ds /\
               assets (new_pool ds) = map (fun d => (d, py_zero)) ds /\
               limiters (new_pool ds) = map (fun d => (d, [])) ds).
Proof.
  split; [apply NoDup_keys_fold; constructor|].
  split; [|split; [|split]].
  - intros k. unfold denoms. rewrite in_keys_get. simpl. rewrite fold_set_get.
    rewrite <- existsb_eqb_In. destruct existsb; simpl; split; congruence.
  - intros k. simpl. now rewrite fold_set_get.
  - intros k. simpl. now rewrite fold_set_get.
  - intros Hnd. simpl. unfold denoms; simpl.
    rewrite !fold_set_distinct by (exact Hnd || reflexivity).
    simpl. split; [|split; reflexivity].
    unfold keys. rewrite map_map. apply map_id.
Qed.

(** ** Keys and limiter registry through the pool operations *)

Section Shape.
Context {T : Type} `{PyNum T}.
Variables (K : list string) (L : dict (list (Limiter T))).

Lemma set_after_get_shape (d : string) (g : T -> PyM (Pool T) T) :
  (forall b, preserves (shape_is K L) (g b)) ->
  preserves (shape_is K L) (b <- get_asset d ;; v <- g b ;; set_asset d v).
Proof.
  intros Hg s Hs. unfold bind at 1, get_asset, getitem.
  destruct (dict_get (assets s) d) as [b|] eqn:Eb; simpl; [|exact Hs].
  specialize (Hg b s Hs). unfold bind.
  destruct (g b s) as [s1 [e|v]] eqn:Eg; simpl in *; [exact Hg|].
  destruct Hg as [HK HL]. split; simpl; [|exact HL].
  (* [g] reads the state only through lookups: the key is still there *)
  rewrite keys_set_present; [exact HK|].
  intros Hn. apply in_keys_get in Hn; [exact Hn|]. rewrite HK.
  destruct Hs as [HK0 _]. rewrite <- HK0. apply in_keys_get. congruence.
Qed.

Lemma surpassed_limit_shape t : preserves (shape_is K L) (surpassed_limit t).
Proof. intros s Hs; exact Hs. Qed.

Lemma loop_shape (ks : list string) (amount : dict T) (f : T -> T -> T) :
  preserves (shape_is K L)
    (for_ ks (fun denom => b <- get_asset denom ;; a <- lift (getitem amount denom) ;;
                          set_asset denom (f b a))).
Proof.
  apply preserves_for. intros d.
  assert (Hg : preserves (shape_is K L)
     (b <- get_asset d ;; v <- (a <- lift (getitem amount d) ;; ret (f b a)) ;; set_asset d v)).
  { apply set_after_get_shape. intros b. apply preserves_bind; [apply preserves_lift|].
    intros a. apply preserves_ret. }
  intros s Hs. specialize (Hg s Hs). revert Hg.
  unfold bind, get_asset, lift, ret.
  destruct (getitem (assets s) d); [tauto|].
  destruct (getitem amount d); tauto.
Qed.

Lemma iadd_isub_shape d x :
  preserves (shape_is K L) (iadd_asset d x) /\ preserves (shape_is K L) (isub_asset d x).
Proof.
  split; intros s Hs.
  - pose proof (set_after_get_shape d (fun b => ret (py_add b x))
                  (fun b => preserves_ret _ _) s Hs) as Hg.
    revert Hg. unfold iadd_asset, bind, get_asset, ret.
    destruct (getitem (assets s) d); tauto.
  - pose proof (set_after_get_shape d (fun b => ret (py_sub b x))
                  (fun b => preserves_ret _ _) s Hs) as Hg.
    revert Hg. unfold isub_asset, bind, get_asset, ret.
    destruct (getitem (assets s) d); tauto.
Qed.

Lemma exit_loop_shape (ks : list string) (amount : dict T) :
  preserves (shape_is K L) (exit_loop ks amount).
Proof.
  revert amount. induction ks as [|d ks IH]; intros amount s Hs; simpl; [exact Hs|].
  unfold bind at 1, get_asset. destruct (getitem (assets s) d) as [e|b] eqn:Eb; [exact Hs|].
  unfold bind at 1, lift. destruct (getitem amount d) as [e|a]; [exact Hs|].
  unfold bind at 1. rewrite Eb.
  unfold bind at 1, lift.
  destruct (getitem (if py_ltb b a then dict_set amount d b else amount) d) as [e|a'];
    [exact Hs|].
  unfold bind at 1, set_asset. apply IH.
  destruct Hs as [HK HL]. split; [|exact HL]. simpl.
  rewrite keys_set_present; [exact HK|].
  unfold getitem in Eb. destruct (dict_get (assets s) d); congruence.
Qed.

(** [join_pool], [exit_pool] and [swap] keep the keys of the balances and
    the limiter registry, whatever they return or raise. *)
Lemma ops_shape t amount din dout a :
  preserves (shape_is K L) (join_pool t amount) /\
  preserves (shape_is K L) (exit_pool t amount) /\
  preserves (shape_is K L) (swap din dout t a).
Proof.
  split; [|split].
  - unfold join_pool. apply preserves_bind; [apply loop_shape|intros _].
    apply preserves_bind; [apply surpassed_limit_shape|intros s]. cbv zeta.
    apply preserves_bind; [|intros _; apply preserves_ret].
    destruct (negb (negb s)); [apply loop_shape|apply preserves_ret].
  - unfold exit_pool. apply preserves_bind; [apply exit_loop_shape|intros amt].
    apply preserves_bind; [apply surpassed_limit_shape|intros s]. cbv zeta.
    apply preserves_bind; [|intros _; apply preserves_ret].
    destruct (negb (negb s)); [apply loop_shape|apply preserves_ret].
  - unfold swap. apply preserves_bind; [apply iadd_isub_shape|intros _].
    apply preserves_bind; [apply iadd_isub_shape|intros _].
    apply preserves_bind; [apply surpassed_limit_shape|intros s]. cbv zeta.
    apply preserves_bind; [|intros _; apply preserves_ret].
    destruct (negb (negb s)); [|apply preserves_ret].
    apply preserves_bind; [apply iadd_isub_shape|intros _; apply iadd_isub_shape].
Qed.

End Shape.

Lemma bind_unfold {S A B : Type} (m : PyM S A) (k : A -> PyM S B) s :
  bind m k s = match m s with
               | (s', inl e) => (s', inl e)
               | (s', inr a) => k a s'
               end.
Proof. unfold bind. now destruct (m s). Qed.

Section Phases.
Context {T : Type} `{PyNum T}.

(** Each operation first changes balances (keeping the keys and the
    registry) and then runs the common tail, unless the first phase
    raised. *)
Lemma ops_phases (p : Pool T) t amount din dout a (op : PyM (Pool T) bool) :
  op = join_pool t amount \/ op = exit_pool t amount \/ op = swap din dout t a ->
  (exists e, snd (op p) = inl e) \/
  exists s1 rb, shape_is (keys (assets p)) (limiters p) s1 /\ op p = limit_tail t rb s1.
Proof.
  intros [Hop|[Hop|Hop]]; subst op.
  - unfold join_pool. rewrite bind_unfold.
    destruct (for_ _ _ p) as [s1 [e|[]]] eqn:E; [left; now exists e|right].
    pose proof (loop_shape (keys (assets p)) (limiters p) (keys amount) amount py_add p
                  (conj eq_refl eq_refl)) as Hs. rewrite E in Hs.
    eexists s1, _. split; [exact Hs|reflexivity].
  - unfold exit_pool. rewrite bind_unfold.
    destruct (exit_loop _ _ p) as [s1 [e|amt]] eqn:E; [left; now exists e|right].
    pose proof (exit_loop_shape (keys (assets p)) (limiters p) (keys amount) amount p
                  (conj eq_refl eq_refl)) as Hs. rewrite E in Hs.
    eexists s1, _. split; [exact Hs|reflexivity].
  - unfold swap. rewrite bind_unfold.
    destruct (iadd_asset din a p) as [s0 [e|[]]] eqn:E0; [left; now exists e|].
    pose proof (proj1 (iadd_isub_shape (keys (assets p)) (limiters p) din a) p
                  (conj eq_refl eq_refl)) as Hs. rewrite E0 in Hs.
    rewrite bind_unfold.
    destruct (isub_asset dout a s0) as [s1 [e|[]]] eqn:E1; [left; now exists e|right].
    pose proof (proj2 (iadd_isub_shape (keys (assets p)) (limiters p) dout a) s0 Hs) as Hs1.
    rewrite E1 in Hs1.
    eexists s1, _. split; [exact Hs1|reflexivity].
Qed.

Lemma limit_tail_raise t rb (s1 : Pool T) e :
  surpassed_limit_of s1 t = inl e -> limit_tail t rb s1 = (s1, inl e).
Proof. intros E. unfold limit_tail, bind at 1, surpassed_limit. now rewrite E. Qed.

Lemma limit_tail_pass t rb (s1 : Pool T) :
  surpassed_limit_of s1 t = inr false -> limit_tail t rb s1 = (s1, inr true).
Proof. intros E. unfold limit_tail, bind at 1, surpassed_limit. now rewrite E. Qed.

(** What the limit check sees depends only on the keys of the balances
    when no limiter is registered. *)
Lemma surpassed_denoms_empty (p : Pool T) t ds :
  Forall (fun d => dict_get (limiters p) d = Some []) ds -> surpassed_denoms p t ds = inr false.
Proof.
  induction 1 as [|d ds Hd _ IH]; simpl; [reflexivity|].
  unfold getitem. now rewrite Hd.
Qed.

Lemma surpassed_denoms_missing (p : Pool T) t ds d :
  (forall k, In k ds -> k = d \/ dict_get (limiters p) k = Some []) ->
  In d ds -> dict_get (limiters p) d = None ->
  surpassed_denoms p t ds = inl (KeyError d).
Proof.
  induction ds as [|x ds IH]; intros Hds Hd Hnone; [destruct Hd|].
  simpl. unfold getitem at 1.
  destruct (Hds x (or_introl eq_refl)) as [->|Hx].
  - now rewrite Hnone.
  - rewrite Hx. simpl. destruct Hd as [->|Hd]; [congruence|].
    apply IH; [intros k Hk; apply Hds; now right | exact Hd | exact Hnone].
Qed.

End Phases.

Lemma no_limits_shape {T : Type} `{PyNum T} (p s : Pool T) :
  shape_is (keys (assets p)) (limiters p) s -> no_limits p -> no_limits s.
Proof. intros [HK HL]. unfold no_limits. now rewrite HK, HL. Qed.

Lemma no_limits_new_pool {T : Type} `{PyNum T} (ds : list string) : no_limits (new_pool ds).
Proof.
  unfold no_limits. apply Forall_forall. intros k Hk.
  apply in_keys_get in Hk. simpl in *. rewrite fold_set_get in Hk. rewrite fold_set_get.
  destruct existsb; [reflexivity|]. simpl in Hk. congruence.
Qed.

(** ** Pools without limiters *)

(** X2. When every asset of the pool is registered with an empty limiter
    list (as [Pool(denoms)] leaves it), [join_pool], [exit_pool] and [swap]
    never return [False]: each either commits and returns [True] or raises
    a [KeyError] before reaching the limit check. *)
Theorem no_limits_never_rejects {T : Type} `{PyNum T} (p : Pool T) t amount din dout a :
  no_limits p ->
  snd (join_pool t amount p) <> inr false /\
  snd (exit_pool t amount p) <> inr false /\
  snd (swap din dout t a p) <> inr false.
Proof.
  intros Hp.
  assert (Hop : forall op, op = join_pool t amount \/ op = exit_pool t amount \/
                           op = swap din dout t a -> snd (op p) <> inr false).
  { intros op Hop.
    destruct (ops_phases p t amount din dout a op Hop) as [[e He]|(s1 & rb & Hs & ->)].
    - rewrite He. discriminate.
    - rewrite limit_tail_pass; [discriminate|].
      apply surpassed_denoms_empty, (no_limits_shape p s1 Hs Hp). }
  split; [|split]; apply Hop; tauto.
Qed.

Lemma no_limits_never_rejects_witness :
  snd (join_pool 1 [("x"%string, 0.2%float)] (new_pool ["x"%string; "y"%string])) <> inr false /\
  snd (exit_pool 1 [("x"%string, 0.2%float)] (new_pool ["x"%string; "y"%string])) <> inr false /\
  snd (swap "x"%string "y"%string 1 0.2%float (new_pool ["x"%string; "y"%string])) <> inr false.
Proof. apply no_limits_never_rejects. apply no_limits_new_pool. Defined.

(** ** A denom added without limiters *)

(** X3. [add_new_denom] gives the new denom a balance but no entry in
    [self.limiters].  On a pool whose assets are all registered with empty
    limiter lists, after adding a new denom the limit check raises
    [KeyError] for it, and so every [join_pool], [exit_pool] and [swap]
    raises (after changing balances) until [set_limiters] registers it. *)
Theorem add_new_denom_blocks_ops {T : Type} `{PyNum T} (p : Pool T) d t amount din dout a :
  no_limits p -> dict_get (assets p) d = None -> dict_get (limiters p) d = None ->
  surpassed_limit_of (fst (add_new_denom d p)) t = inl (KeyError d) /\
  (exists e, snd (join_pool t amount (fst (add_new_denom d p))) = inl e) /\
  (exists e, snd (exit_pool t amount (fst (add_new_denom d p))) = inl e) /\
  (exists e, snd (swap din dout t a (fst (add_new_denom d p))) = inl e).
Proof.
  intros Hp Hda Hdl.
  set (p' := fst (add_new_denom d p)).
  assert (HK : keys (assets p') = keys (assets p) ++ [d])
    by (unfold p', add_new_denom, set_asset; simpl; now apply keys_set_absent).
  assert (HL : limiters p' = limiters p) by reflexivity.
  assert (Hchk : forall s, shape_is (keys (assets p')) (limiters p') s ->
                   surpassed_limit_of s t = inl (KeyError d)).
  { intros s [HKs HLs]. unfold surpassed_limit_of, denoms.
    apply surpassed_denoms_missing.
    - intros k. rewrite HKs, HK, HLs, HL. intros Hk. apply in_app_or in Hk as [Hk|[<-|[]]].
      + right. unfold no_limits in Hp. rewrite Forall_forall in Hp. now apply Hp.
      + now left.
    - rewrite HKs, HK. apply in_or_app. right. now left.
    - now rewrite HLs, HL. }
  assert (Hop : forall op, op = join_pool t amount \/ op = exit_pool t amount \/
                           op = swap din dout t a -> exists e, snd (op p') = inl e).
  { intros op Hop.
    destruct (ops_phases p' t amount din dout a op Hop) as [He|(s1 & rb & Hs & ->)];
      [exact He|].
    rewrite (limit_tail_raise _ _ _ _ (Hchk s1 Hs)). now eexists. }
  split; [apply Hchk; split; reflexivity|].
  split; [|split]; apply Hop; tauto.
Qed.

Lemma add_new_denom_blocks_ops_witness :
  surpassed_limit_of (fst (add_new_denom "z"%string (new_pool (T:=float) ["x"%string; "y"%string]))) 1
    = inl (KeyError "z"%string) /\
  (exists e, snd (join_pool 1 [("x"%string, 1%float)]
                (fst (add_new_denom "z"%string (new_pool ["x"%string; "y"%string])))) = inl e) /\
  (exists e, snd (exit_pool 1 [("x"%string, 1%float)]
                (fst (add_new_denom "z"%string (new_pool ["x"%string; "y"%string])))) = inl e) /\
  (exists e, snd (swap "x"%string "y"%string 1 1%float
                (fst (add_new_denom "z"%string (new_pool ["x"%string; "y"%string])))) = inl e).
Proof.
  apply add_new_denom_blocks_ops; [apply no_limits_new_pool | reflexivity | reflexivity].
Defined.

(** ** Registering limiters *)

(** X4. [set_limiters d ls] raises [ValueError("Denom d is not in the
    pool.")] and changes nothing when [d] has no balance entry; otherwise it
    returns normally, leaves the balances as they were, makes [ls] the
    limiter list of [d] (a later [self.limiters[d]] finds it) and keeps the
    limiter lists of the other denoms. *)
Theorem set_limiters_registers {T : Type} `{PyNum T} (p : Pool T) d ls :
  (dict_get (assets p) d = None ->
     set_limiters d ls p = (p, inl (ValueError ("Denom " ++ d ++ " is not in the pool.")))) /\
  (dict_get (assets p) d <> None ->
     snd (set_limiters d ls p) = inr tt /\
     assets (fst (set_limiters d ls p)) = assets p /\
     getitem (limiters (fst (set_limiters d ls p))) d = inr ls /\
     (forall k, k <> d ->
        dict_get (limiters (fst (set_limiters d ls p))) k = dict_get (limiters p) k)).
Proof.
  unfold set_limiters. split; intros Hd.
  - now rewrite Hd.
  - destruct (dict_get (assets p) d) as [b|]; [|congruence]. simpl.
    split; [reflexivity|]. split; [reflexivity|].
    split; [unfold getitem; now rewrite dict_get_set_same|].
    intros k Hk. now apply dict_get_set_other.
Qed.

Lemma set_limiters_registers_witness :
  set_limiters "z"%string [StaticLimiter 0.6%float] pool_x5
    = (pool_x5, inl (ValueError ("Denom " ++ "z" ++ " is not in the pool."))) /\
  getitem (limiters (fst (set_limiters "x"%string [StaticLimiter 0.6%float] pool_x5))) "x"%string
    = inr [StaticLimiter 0.6%float].
Proof.
  split.
  - apply (proj1 (set_limiters_registers pool_x5 "z"%string [StaticLimiter 0.6%float])).
    reflexivity.
  - apply (proj2 (set_limiters_registers pool_x5 "x"%string [StaticLimiter 0.6%float])).
    discriminate.
Defined.

Lemma new_pool_registers_denoms_witness :
  denoms (new_pool (T:=float) ["x"%string; "y"%string]) = ["x"%string; "y"%string] /\
  assets (new_pool (T:=float) ["x"%string; "y"%string]) = [("x"%string, 0%float); ("y"%string, 0%float)] /\
  limiters (new_pool (T:=float) ["x"%string; "y"%string]) = [("x"%string, []); ("y"%string, [])].
Proof.
  destruct (proj2 (proj2 (proj2 (proj2 (new_pool_registers_denoms (T:=float) ["x"%string; "y"%string])))))
    as (H1 & H2 & H3); [repeat constructor; simpl; intuition discriminate|].
  split; [exact H1|]. rewrite H2, H3. split; reflexivity.
Defined.

(** ** The change limiter's window *)

Lemma last_of_suffix {A : Type} (pre w' l : list A) (x d : A) :
  pre ++ w' = l ++ [x] -> w' <> [] -> last w' d = x.
Proof.
  intros E Hne. destruct (exists_last Hne) as (w'' & y & ->).
  rewrite app_assoc in E. apply app_inj_tail in E as [_ ->]. apply last_last.
Qed.

(** X5. [ChangeLimiter.update(t, v)] keeps a suffix of the window with
    [(t, v)] appended.  For [window_length >= 1] the window then holds
    [min(len + 1, window_length)] samples, the newest last; for
    [window_length = 0] the slice [w[-0:]] is the whole list, so nothing is
    ever dropped; for [window_length < 0] the slice drops the
    [-window_length] oldest samples. *)
Theorem update_window {T : Type} `{PyNum T} (offset : T) (wl : Z) (w : list (Z * T)) t v :
  exists w', update (ChangeLimiter offset wl w) t v = inr (ChangeLimiter offset wl w') /\
    (exists pre, pre ++ w' = w ++ [(t, v)]) /\
    ((1 <= wl)%Z ->
       Z.of_nat (List.length w') = Z.min (Z.of_nat (List.length w) + 1) wl /\
       w' <> [] /\ last w' (t, v) = (t, v)) /\
    (wl = 0%Z -> w' = w ++ [(t, v)]) /\
    ((wl < 0)%Z -> w' = skipn (Z.to_nat (- wl)) (w ++ [(t, v)])).
Proof.
  eexists; split; [reflexivity|].
  unfold py_slice_from.
  set (l := w ++ [(t, v)]).
  assert (Hl : List.length l = S (List.length w))
    by (unfold l; rewrite length_app; simpl; lia).
  split; [exists (firstn (Z.to_nat (if (- wl <? 0)%Z then Z.max 0 (Z.of_nat (List.length l) + - wl)
                                     else Z.min (- wl) (Z.of_nat (List.length l)))) l);
          apply firstn_skipn|].
  split; [|split].
  - intros Hwl. rewrite Hl.
    destruct (Z.ltb_spec (- wl) 0) as [_|]; [|lia].
    assert (Hlen : Z.of_nat (List.length (skipn (Z.to_nat (Z.max 0 (Z.of_nat (S (List.length w)) + - wl))) l))
                   = Z.min (Z.of_nat (List.length w) + 1) wl).
    { rewrite length_skipn, Hl. lia. }
    split; [exact Hlen|].
    assert (Hne : skipn (Z.to_nat (Z.max 0 (Z.of_nat (S (List.length w)) + - wl))) l <> []).
    { intros E. rewrite E in Hlen. simpl in Hlen. lia. }
    split; [exact Hne|].
    apply (last_of_suffix (firstn (Z.to_nat (Z.max 0 (Z.of_nat (S (List.length w)) + - wl))) l)
             _ w _ _); [apply firstn_skipn|exact Hne].
  - intros ->. simpl. rewrite Z.min_l by lia. reflexivity.
  - intros Hwl. destruct (Z.ltb_spec (- wl) 0) as [|_]; [lia|].
    destruct (Z.le_ge_cases (- wl) (Z.of_nat (List.length l))).
    + now rewrite Z.min_l.
    + rewrite Z.min_r by lia. rewrite !skipn_all2; [reflexivity|lia|lia].
Qed.

Lemma update_window_witness :
  exists w', update (ChangeLimiter 0.001%float 2 [(1%Z, 0.5%float); (2%Z, 0.4%float)]) 3 0.3%float
             = inr (ChangeLimiter 0.001%float 2 w') /\
    Z.of_nat (List.length w') = 2%Z /\ last w' (3%Z, 0.3%float) = (3%Z, 0.3%float).
Proof.
  destruct (update_window 0.001%float 2 [(1%Z, 0.5%float); (2%Z, 0.4%float)] 3 0.3%float)
    as (w' & Hu & _ & H1 & _).
  exists w'. split; [exact Hu|].
  destruct (H1 ltac:(lia)) as (Hlen & _ & Hlast). split; [rewrite Hlen; reflexivity|exact Hlast].
Defined.

(** ** Weights at the edges *)

(** X6. [weight] reads [self.assets[denom]] only when the total is not 0:
    for a denom without a balance entry it returns 0 when the balances sum
    to 0 (no [KeyError]) and raises [KeyError] otherwise; for a registered
    denom it never raises. *)
Theorem weight_missing_denom {T : Type} `{PyNum T} (p : Pool T) d :
  (dict_get (assets p) d = None ->
     weight p d = if py_eqb (py_sum (values (assets p))) py_zero then inr py_zero
                  else inl (KeyError d)) /\
  (dict_get (assets p) d <> None -> exists w, weight p d = inr w).
Proof.
  unfold weight, getitem. split; intros Hd.
  - rewrite Hd. now destruct py_eqb.
  - destruct py_eqb; [now eexists|].
    destruct (dict_get (assets p) d); [now eexists|congruence].
Qed.

Lemma weight_missing_denom_witness :
  weight pool_x5 "z"%string = inl (KeyError "z"%string) /\
  weight (new_pool (T:=float) ["x"%string]) "z"%string = inr 0%float.
Proof.
  split.
  - rewrite (proj1 (weight_missing_denom pool_x5 "z"%string)) by reflexivity.
    vm_compute. reflexivity.
  - rewrite (proj1 (weight_missing_denom (new_pool (T:=float) ["x"%string]) "z"%string))
      by reflexivity.
    vm_compute. reflexivity.
Defined.

(** ** Weights of non-negative balances *)

Lemma fold_Qplus_nonneg (vs : list Q) :
  Forall (fun v => 0 <= v)%Q vs -> (0 <= fold_left Qplus vs 0)%Q.
Proof.
  induction 1 as [|v vs Hv _ IH]; simpl; [lra|].
  rewrite fold_Qplus_shift. lra.
Qed.

Lemma fold_Qplus_member (vs : list Q) b :
  Forall (fun v => 0 <= v)%Q vs -> In b vs -> (b <= fold_left Qplus vs 0)%Q.
Proof.
  induction 1 as [|v vs Hv Hvs IH]; intros Hb; [destruct Hb|].
  simpl. rewrite fold_Qplus_shift.
  pose proof (fold_Qplus_nonneg vs Hvs).
  destruct Hb as [->|Hb]; [lra|]. specialize (IH Hb). lra.
Qed.

Lemma values_nonneg (p : Pool Q) :
  all_nonneg p -> Forall (fun v => 0 <= v)%Q (values (assets p)).
Proof. unfold all_nonneg, values. intros Hp. now apply Forall_map. Qed.

(** X7. With exact arithmetic and non-negative balances, the weight of
    every registered denom lies between 0 and 1: it is 0 when the balances
    sum to 0 and [balance / total] with [balance <= total] otherwise. *)
Theorem weight_between_0_1 (p : Pool Q) d :
  all_nonneg p -> dict_get (assets p) d <> None ->
  exists w, weight p d = inr w /\ (0 <= w <= 1)%Q.
Proof.
  intros Hp Hd. unfold weight, getitem.
  destruct (dict_get (assets p) d) as [b|] eqn:Eb; [|congruence].
  pose proof (values_nonneg p Hp) as Hvs.
  assert (Hb : In b (values (assets p)))
    by (unfold values; apply in_map_iff; exists (d, b); split; [reflexivity|now apply dict_get_In]).
  pose proof (fold_Qplus_member _ b Hvs Hb) as Hle.
  pose proof (fold_Qplus_nonneg _ Hvs) as Hs0.
  assert (Hb0 : (0 <= b)%Q) by (rewrite Forall_forall in Hvs; now apply Hvs).
  unfold py_sum in *. simpl py_eqb; simpl py_zero; simpl py_add in *; simpl py_div.
  destruct (Qeq_bool (fold_left Qplus (values (assets p)) 0) 0) eqn:E.
  - exists 0%Q. split; [reflexivity|lra].
  - exists (b / fold_left Qplus (values (assets p)) 0)%Q. split; [reflexivity|].
    assert (Hpos : (0 < fold_left Qplus (values (assets p)) 0)%Q).
    { destruct (Qlt_le_dec 0 (fold_left Qplus (values (assets p)) 0)) as [Hl|Hl]; [exact Hl|].
      assert (Hz : (fold_left Qplus (values (assets p)) 0 == 0)%Q) by lra.
      apply Qeq_bool_iff in Hz. congruence. }
    split.
    + apply Qle_shift_div_l; [exact Hpos|]. lra.
    + apply Qle_shift_div_r; [exact Hpos|]. lra.
Qed.

Lemma weight_between_0_1_witness :
  exists w, weight pool_q "x"%string = inr w /\ (0 <= w <= 1)%Q.
Proof.
  apply weight_between_0_1; [unfold all_nonneg; nonneg_by_compute | discriminate].
Defined.

(** ** The limit check with static limiters only *)

Section StaticCheck.
Context {T : Type} `{PyNum T}.

Lemma map_static_inj (us us' : list T) :
  map StaticLimiter us = map StaticLimiter us' -> us = us'.
Proof.
  revert us'. induction us as [|u us IH]; intros [|u' us'] E; simpl in E;
    try discriminate; [reflexivity|].
  injection E as -> E. f_equal. now apply IH.
Qed.

Lemma surpassed_static (p : Pool T) t d us w :
  weight p d = inr w ->
  surpassed_limiters p t d (map StaticLimiter us) = inr (existsb (fun u => py_ltb u w) us).
Proof.
  intros Hw. induction us as [|u us IH]; simpl; [reflexivity|].
  rewrite Hw. destruct (py_ltb u w); [reflexivity|exact IH].
Qed.

Lemma surpassed_denoms_static (p : Pool T) t ds :
  (forall d, In d ds -> dict_get (assets p) d <> None /\
     exists us, dict_get (limiters p) d = Some (map StaticLimiter us)) ->
  exists b, surpassed_denoms p t ds = inr b /\
    (b = true <-> exists d us u w, In d ds /\
        dict_get (limiters p) d = Some (map StaticLimiter us) /\ In u us /\
        weight p d = inr w /\ py_ltb u w = true).
Proof.
  induction ds as [|d ds IH]; intros Hds.
  - exists false. split; [reflexivity|]. split; [discriminate|].
    intros (d & us & u & w & [] & _).
  - destruct (Hds d (or_introl eq_refl)) as [Hda (us & Hus)].
    destruct (proj2 (weight_missing_denom p d) Hda) as [w Hw].
    simpl. unfold getitem at 1. rewrite Hus, (surpassed_static p t d us w Hw).
    destruct (existsb (fun u => py_ltb u w) us) eqn:Ex.
    + exists true. split; [reflexivity|]. split; [|reflexivity]. intros _.
      apply existsb_exists in Ex as (u & Hu & Hlt).
      exists d, us, u, w. auto.
    + destruct IH as (b & Hb & Hiff); [intros k Hk; apply Hds; now right|].
      exists b. split; [exact Hb|]. rewrite Hiff. split.
      * intros (k & us' & u & w' & Hk & ?). exists k, us', u, w'. auto.
      * intros (k & us' & u & w' & [<-|Hk] & Hl & Hu & Hw' & Hlt).
        -- exfalso. rewrite Hus in Hl. injection Hl as Hl.
           apply map_static_inj in Hl. subst us'.
           rewrite Hw in Hw'. injection Hw' as <-.
           assert (existsb (fun u => py_ltb u w) us = true)
             by (apply existsb_exists; eauto). congruence.
        -- exists k, us', u, w'. auto.
Qed.

End StaticCheck.

(** X8. When every asset of the pool has only [StaticLimiter]s registered,
    [surpassed_limit] never raises, and it returns [True] exactly when the
    weight of some asset exceeds ([>]) one of that asset's upper limits. *)
Theorem static_limits_check {T : Type} `{PyNum T} (p : Pool T) t :
  (forall d, In d (denoms p) -> exists us, dict_get (limiters p) d = Some (map StaticLimiter us)) ->
  exists b, surpassed_limit_of p t = inr b /\
    (b = true <-> exists d us u w, In d (denoms p) /\
        dict_get (limiters p) d = Some (map StaticLimiter us) /\ In u us /\
        weight p d = inr w /\ py_ltb u w = true).
Proof.
  intros Hs. apply surpassed_denoms_static. intros d Hd. split; [|now apply Hs].
  apply in_keys_get, Hd.
Qed.

Lemma static_limits_check_witness :
  exists b, surpassed_limit_of pool_x01 1 = inr b /\
    (b = true <-> exists d us u w, In d (denoms pool_x01) /\
        dict_get (limiters pool_x01) d = Some (map StaticLimiter us) /\ In u us /\
        weight pool_x01 d = inr w /\ py_ltb u w = true).
Proof.
  apply static_limits_check. intros d [<-|[<-|[]]].
  - now exists [0.5%float].
  - now exists [].
Defined.

(** ** The change limiter with a sorted window *)

Lemma twma_loop_bounds (h : Q) (t : Z) :
  forall (rest : list (Z * Q)) (t_i : Z) (v_i acc : Q),
    Sorted (fun a b : Z * Q => (fst a <= fst b)%Z) ((t_i, v_i) :: rest) ->
    Forall (fun s : Z * Q => (fst s <= t)%Z /\ (0 <= snd s <= h)%Q) ((t_i, v_i) :: rest) ->
    (acc <= twma_loop ((t_i, v_i) :: rest) acc <= acc + h * inject_Z (t - t_i))%Q.
Proof.
  induction rest as [|[t_n v_n] rest IH]; intros t_i v_i acc Hs Hf.
  - inversion Hf as [|? ? [Ht Hv] _]; subst. simpl in Ht, Hv. simpl twma_loop.
    assert (0 <= inject_Z (t - t_i))%Q by (change 0%Q with (inject_Z 0); rewrite <- Zle_Qle; lia).
    assert (0 <= h * inject_Z (t - t_i))%Q by (apply Qmult_le_0_compat; lra).
    lra.
  - inversion Hs as [|? ? Hs' Hhd]; subst. inversion Hhd as [|? ? Hle]; subst. simpl in Hle.
    inversion Hf as [|? ? [Ht Hv] Hf']; subst. simpl in Ht, Hv.
    change (twma_loop ((t_i, v_i) :: (t_n, v_n) :: rest) acc)
      with (twma_loop ((t_n, v_n) :: rest) (acc + inject_Z (t_n - t_i) * v_i))%Q.
    specialize (IH t_n v_n (acc + inject_Z (t_n - t_i) * v_i)%Q Hs' Hf').
    assert (Hd : (0 <= inject_Z (t_n - t_i))%Q) by (change 0%Q with (inject_Z 0); rewrite <- Zle_Qle; lia).
    assert (H1 : (0 <= inject_Z (t_n - t_i) * v_i)%Q) by (apply Qmult_le_0_compat; lra).
    assert (H2 : (inject_Z (t_n - t_i) * v_i <= inject_Z (t_n - t_i) * h)%Q)
      by (rewrite !(Qmult_comm (inject_Z (t_n - t_i))); apply Qmult_le_compat_r; lra).
    assert (H3 : (inject_Z (t - t_i) == inject_Z (t_n - t_i) + inject_Z (t - t_n))%Q)
      by (rewrite <- inject_Z_plus; apply inject_Z_injective; lia).
    rewrite H3. split; [lra|].
    setoid_replace (h * (inject_Z (t_n - t_i) + inject_Z (t - t_n)))%Q
      with (inject_Z (t_n - t_i) * h + h * inject_Z (t - t_n))%Q by ring.
    lra.
Qed.

(** X9. With exact arithmetic, take a [ChangeLimiter] whose samples are in
    time order, each weight between 0 and [h], queried at a time after its
    oldest sample and not before its newest.  Then the time-weighted
    average lies between 0 and [h]: the limit is never surpassed by a value
    at most [offset], and always by a value above [h + offset]. *)
Theorem change_limiter_sorted_bounds (offset h : Q) (window_length : Z)
    (window : list (Z * Q)) (t_0 : Z) (v_0 : Q) (rest : list (Z * Q)) (timestamp : Z)
    (value : Q) :
  window = (t_0, v_0) :: rest ->
  Sorted (fun a b : Z * Q => (fst a <= fst b)%Z) window ->
  Forall (fun s : Z * Q => (fst s <= timestamp)%Z /\ (0 <= snd s <= h)%Q) window ->
  (t_0 < timestamp)%Z ->
  ((value <= offset)%Q ->
     limiter_surpassed_limit (ChangeLimiter offset window_length window) timestamp value
     = inr false) /\
  ((h + offset < value)%Q ->
     limiter_surpassed_limit (ChangeLimiter offset window_length window) timestamp value
     = inr true).
Proof.
  intros -> Hs Hf Ht.
  pose proof (twma_loop_bounds h timestamp rest t_0 v_0 0%Q Hs Hf) as [Hlo Hhi].
  set (tw := twma_loop ((t_0, v_0) :: rest) 0%Q) in *.
  assert (Hpos : (0 < inject_Z (timestamp - t_0))%Q)
    by (change 0%Q with (inject_Z 0); rewrite <- Zlt_Qlt; lia).
  assert (Hq : (0 <= tw / inject_Z (timestamp - t_0) <= h)%Q).
  { split.
    - apply Qle_shift_div_l; [exact Hpos|]. lra.
    - apply Qle_shift_div_r; [exact Hpos|]. lra. }
  unfold limiter_surpassed_limit. cbv zeta.
  destruct (Z.eqb_spec (timestamp - t_0) 0) as [E|E]; [lia|].
  change (twma_loop ((t_0, v_0) :: rest) py_zero) with tw. clearbody tw.
  simpl py_ltb; simpl py_add; simpl py_div; simpl py_of_Z.
  split; intros Hv.
  - destruct (Qle_bool value (tw / inject_Z (timestamp - t_0) + offset)) eqn:Eb; [reflexivity|].
    exfalso.
    assert (Hle : (value <= tw / inject_Z (timestamp - t_0) + offset)%Q) by lra.
    apply Qle_bool_iff in Hle. congruence.
  - destruct (Qle_bool value (tw / inject_Z (timestamp - t_0) + offset)) eqn:Eb; [|reflexivity].
    apply Qle_bool_iff in Eb. lra.
Qed.

Lemma change_limiter_sorted_bounds_witness :
  limiter_surpassed_limit (ChangeLimiter (1 # 10)%Q 10 [(1%Z, (1 # 2)%Q); (3%Z, (1 # 4)%Q)]) 5 0%Q
    = inr false /\
  limiter_surpassed_limit (ChangeLimiter (1 # 10)%Q 10 [(1%Z, (1 # 2)%Q); (3%Z, (1 # 4)%Q)]) 5 2%Q
    = inr true.
Proof.
  assert (Hs : Sorted (fun a b : Z * Q => (fst a <= fst b)%Z) [(1%Z, (1 # 2)%Q); (3%Z, (1 # 4)%Q)])
    by (repeat constructor; simpl; lia).
  assert (Hf : Forall (fun s : Z * Q => (fst s <= 5)%Z /\ (0 <= snd s <= 1)%Q)
                 [(1%Z, (1 # 2)%Q); (3%Z, (1 # 4)%Q)])
    by (repeat constructor; simpl; try lia; apply Qle_bool_iff; reflexivity).
  split.
  - apply (proj1 (change_limiter_sorted_bounds (1 # 10)%Q 1%Q 10 _ 1%Z (1 # 2)%Q
                    [(3%Z, (1 # 4)%Q)] 5 0%Q eq_refl Hs Hf ltac:(lia))).
    apply Qle_bool_iff; reflexivity.
  - apply (proj2 (change_limiter_sorted_bounds (1 # 10)%Q 1%Q 10 _ 1%Z (1 # 2)%Q
                    [(3%Z, (1 # 4)%Q)] 5 2%Q eq_refl Hs Hf ltac:(lia))).
    reflexivity.
Defined.

(** ** Loops over the amount dictionary, key by key *)

Lemma dict_get_set_some {V : Type} (d : dict V) k k' v :
  dict_get d k' <> None -> dict_get (dict_set d k v) k' <> None.
Proof.
  intros Hk. destruct (String.eqb_spec k' k) as [->|Hne].
  - now rewrite dict_get_set_same.
  - now rewrite dict_get_set_other.
Qed.

Lemma dict_get_NoDup_In {V : Type} (d : dict V) k v :
  NoDup (keys d) -> In (k, v) d -> dict_get d k = Some v.
Proof.
  induction d as [|[k0 v0] d IH]; simpl; intros Hnd Hin; [destruct Hin|].
  inversion Hnd as [|? ? Hk0 Hnd']; subst.
  destruct Hin as [E|Hin].
  - injection E as -> ->. now rewrite String.eqb_refl.
  - destruct (String.eqb_spec k k0) as [->|Hne]; [|now apply IH].
    exfalso. apply Hk0. apply in_map_iff. now exists (k0, v).
Qed.

Section Loops.
Context {T : Type} `{PyNum T}.

Lemma body_eval (amount : dict T) (f : T -> T -> T) d (s : Pool T) :
  (b <- get_asset d ;; a <- lift (getitem amount d) ;; set_asset d (f b a)) s
  = match dict_get (assets s) d, dict_get amount d with
    | Some b, Some a =>
        ({| assets := dict_set (assets s) d (f b a); limiters := limiters s |}, inr tt)
    | _, _ => (s, inl (KeyError d))
    end.
Proof.
  unfold bind, get_asset, lift, getitem, set_asset.
  destruct (dict_get (assets s) d); [|reflexivity].
  destruct (dict_get amount d); reflexivity.
Qed.

Lemma loop_pointwise (amount : dict T) (f : T -> T -> T) (ks : list string) (s s' : Pool T) :
  NoDup ks ->
  for_ ks (fun d => b <- get_asset d ;; a <- lift (getitem amount d) ;; set_asset d (f b a)) s
    = (s', inr tt) ->
  limiters s' = limiters s /\
  (forall k, In k ks -> exists b a, dict_get (assets s) k = Some b /\
     dict_get amount k = Some a /\ dict_get (assets s') k = Some (f b a)) /\
  (forall k, ~ In k ks -> dict_get (assets s') k = dict_get (assets s) k).
Proof.
  revert s. induction ks as [|d ks IH]; intros s Hnd Hl; simpl in Hl.
  - injection Hl as <-. split; [reflexivity|]. split; [intros k []|reflexivity].
  - inversion Hnd as [|? ? Hd Hnd']; subst.
    rewrite bind_unfold, body_eval in Hl.
    destruct (dict_get (assets s) d) as [b|] eqn:Eb; [|discriminate].
    destruct (dict_get amount d) as [a|] eqn:Ea; [|discriminate].
    destruct (IH _ Hnd' Hl) as (HL & Hin & Hout). simpl in HL, Hin, Hout.
    split; [exact HL|]. split.
    + intros k [<-|Hk].
      * exists b, a. split; [exact Eb|]. split; [exact Ea|].
        rewrite Hout by exact Hd. apply dict_get_set_same.
      * destruct (Hin k Hk) as (b' & a' & Hb' & Ha' & Hs').
        rewrite dict_get_set_other in Hb' by (intros ->; contradiction). eauto.
    + intros k Hk. rewrite Hout by (intros Hk'; apply Hk; now right).
      apply dict_get_set_other. intros ->. apply Hk. now left.
Qed.

(** The loop cannot raise when every key it visits has a balance and an
    amount. *)
Lemma loop_total (amount : dict T) (f : T -> T -> T) (ks : list string) (s : Pool T) :
  (forall k, In k ks -> dict_get (assets s) k <> None /\ dict_get amount k <> None) ->
  exists s', for_ ks (fun d => b <- get_asset d ;; a <- lift (getitem amount d) ;;
                               set_asset d (f b a)) s = (s', inr tt).
Proof.
  revert s. induction ks as [|d ks IH]; intros s Hks; simpl; [now eexists|].
  rewrite bind_unfold, body_eval.
  destruct (Hks d (or_introl eq_refl)) as [Hb Ha].
  destruct (dict_get (assets s) d) as [b|]; [|congruence].
  destruct (dict_get amount d) as [a|]; [|congruence].
  apply IH. intros k Hk. destruct (Hks k (or_intror Hk)) as [Hbk Hak].
  split; [now apply dict_get_set_some|exact Hak].
Qed.

Lemma exit_step (amount : dict T) d ks (s : Pool T) :
  exit_loop (d :: ks) amount s
  = match dict_get (assets s) d, dict_get amount d with
    | Some b, Some a =>
        let c := if py_ltb b a then b else a in
        exit_loop ks (if py_ltb b a then dict_set amount d b else amount)
          {| assets := dict_set (assets s) d (py_sub b c); limiters := limiters s |}
    | _, _ => (s, inl (KeyError d))
    end.
Proof.
  simpl exit_loop. unfold bind at 1, get_asset, getitem at 1.
  destruct (dict_get (assets s) d) as [b|] eqn:Eb; [|reflexivity].
  unfold bind at 1, lift, getitem at 1.
  destruct (dict_get amount d) as [a|] eqn:Ea; [|reflexivity].
  unfold bind at 1, getitem at 1. rewrite Eb.
  unfold bind at 1, lift, getitem at 1.
  destruct (py_ltb b a).
  - rewrite dict_get_set_same. reflexivity.
  - rewrite Ea. reflexivity.
Qed.

Lemma exit_loop_pointwise (ks : list string) (amount amt : dict T) (s s' : Pool T) :
  NoDup ks ->
  exit_loop ks amount s = (s', inr amt) ->
  limiters s' = limiters s /\
  (forall k, In k ks -> exists b a, dict_get (assets s) k = Some b /\ dict_get amount k = Some a /\
     dict_get (assets s') k = Some (py_sub b (if py_ltb b a then b else a)) /\
     dict_get amt k = Some (if py_ltb b a then b else a)) /\
  (forall k, ~ In k ks -> dict_get (assets s') k = dict_get (assets s) k /\
     dict_get amt k = dict_get amount k) /\
  ((forall k, In k ks -> dict_get amount k <> None) -> keys amt = keys amount).
Proof.
  revert amount s. induction ks as [|d ks IH]; intros amount s Hnd Hl.
  - simpl in Hl. injection Hl as <- <-. split; [reflexivity|].
    split; [intros k []|]. split; [intros k _; split; reflexivity|reflexivity].
  - inversion Hnd as [|? ? Hd Hnd']; subst.
    rewrite exit_step in Hl.
    destruct (dict_get (assets s) d) as [b|] eqn:Eb; [|discriminate].
    destruct (dict_get amount d) as [a|] eqn:Ea; [|discriminate].
    cbv zeta in Hl.
    destruct (IH _ _ Hnd' Hl) as (HL & Hin & Hout & Hkeys). simpl in HL, Hin, Hout.
    assert (Hamt_d : dict_get (if py_ltb b a then dict_set amount d b else amount) d
                     = Some (if py_ltb b a then b else a))
      by (destruct (py_ltb b a); [apply dict_get_set_same|exact Ea]).
    assert (Hamt_k : forall k, k <> d ->
              dict_get (if py_ltb b a then dict_set amount d b else amount) k = dict_get amount k)
      by (intros k Hk; destruct (py_ltb b a); [now apply dict_get_set_other|reflexivity]).
    split; [exact HL|]. split; [|split].
    + intros k [<-|Hk].
      * exists b, a. split; [exact Eb|]. split; [exact Ea|].
        destruct (Hout d Hd) as [Hs' Ham]. rewrite Hs', Ham, Hamt_d.
        split; [apply dict_get_set_same|reflexivity].
      * destruct (Hin k Hk) as (b' & a' & Hb' & Ha' & Hs' & Ham).
        assert (Hkd : k <> d) by (intros ->; contradiction).
        rewrite dict_get_set_other in Hb' by exact Hkd. rewrite Hamt_k in Ha' by exact Hkd.
        eauto 6.
    + intros k Hk. assert (Hkd : k <> d) by (intros ->; apply Hk; now left).
      destruct (Hout k (fun Hk' => Hk (or_intror Hk'))) as [Hs' Ham].
      rewrite Hs', Ham, Hamt_k by exact Hkd. split; [|reflexivity].
      now apply dict_get_set_other.
    + intros Hall. rewrite Hkeys.
      * destruct (py_ltb b a); [|reflexivity]. apply keys_set_present. congruence.
      * intros k Hk. assert (Hkd : k <> d) by (intros ->; contradiction).
        rewrite Hamt_k by exact Hkd. apply Hall. now right.
Qed.

Lemma incr_eval (g : T -> T) d (s : Pool T) :
  (b <- get_asset d ;; set_asset d (g b)) s
  = match dict_get (assets s) d with
    | Some b => ({| assets := dict_set (assets s) d (g b); limiters := limiters s |}, inr tt)
    | None => (s, inl (KeyError d))
    end.
Proof.
  unfold bind, get_asset, getitem, set_asset.
  destruct (dict_get (assets s) d); reflexivity.
Qed.

(** A tail that returned [False] found the limit surpassed and completed
    its rollback. *)
Lemma limit_tail_reject t rb (s1 s' : Pool T) :
  limit_tail t rb s1 = (s', inr false) ->
  surpassed_limit_of s1 t = inr true /\ rb s1 = (s', inr tt).
Proof.
  unfold limit_tail, bind at 1, surpassed_limit.
  destruct (surpassed_limit_of s1 t) as [e|[|]]; simpl.
  - discriminate.
  - unfold bind. destruct (rb s1) as [s2 [e|[]]]; simpl; [discriminate|].
    intros E. injection E as ->. split; reflexivity.
  - cbv [bind ret]. discriminate.
Qed.

End Loops.

Lemma dict_get_set {V : Type} (d : dict V) k k' v :
  dict_get (dict_set d k v) k' = if String.eqb k' k then Some v else dict_get d k'.
Proof.
  destruct (String.eqb_spec k' k) as [->|Hne].
  - apply dict_get_set_same.
  - now apply dict_get_set_other.
Qed.

(** ** Rollbacks in exact arithmetic *)

(** The two loops of a rejected [join_pool], run back to back, restore
    the pool. *)
Lemma join_rollback_restores (p s1 p' : Pool Q) (amount : dict Q) :
  NoDup (keys amount) ->
  for_ (keys amount) (fun d => b <- get_asset d ;; a <- lift (getitem amount d) ;;
                               set_asset d (py_add b a)) p = (s1, inr tt) ->
  for_ (keys amount) (fun d => b <- get_asset d ;; a <- lift (getitem amount d) ;;
                               set_asset d (py_sub b a)) s1 = (p', inr tt) ->
  restores p p'.
Proof.
  intros Hnd H1 H2.
  pose proof (loop_shape (keys (assets p)) (limiters p) (keys amount) amount py_add p
                (conj eq_refl eq_refl)) as Hs1. rewrite H1 in Hs1.
  pose proof (loop_shape (keys (assets p)) (limiters p) (keys amount) amount py_sub s1 Hs1)
    as [HK HL]. rewrite H2 in HK, HL.
  destruct (loop_pointwise amount py_add (keys amount) p s1 Hnd H1) as (_ & Hin1 & Hout1).
  destruct (loop_pointwise amount py_sub (keys amount) s1 p' Hnd H2) as (_ & Hin2 & Hout2).
  split; [exact HK|]. split; [exact HL|].
  intros k b Hb. destruct (in_dec string_dec k (keys amount)) as [Hk|Hk].
  - destruct (Hin1 k Hk) as (b0 & a & Hb0 & Ha & Hs).
    destruct (Hin2 k Hk) as (b1 & a1 & Hb1 & Ha1 & Hp').
    rewrite Hb in Hb0. injection Hb0 as <-. rewrite Hs in Hb1. injection Hb1 as <-.
    rewrite Ha in Ha1. injection Ha1 as <-.
    exists (b + a - a)%Q. split; [exact Hp'|]. simpl. ring.
  - exists b. split; [|reflexivity]. rewrite Hout2, Hout1 by exact Hk. exact Hb.
Qed.

Lemma exit_rollback_restores (p s1 p' : Pool Q) (amount amt : dict Q) :
  NoDup (keys amount) ->
  exit_loop (keys amount) amount p = (s1, inr amt) ->
  for_ (keys amt) (fun d => b <- get_asset d ;; a <- lift (getitem amt d) ;;
                            set_asset d (py_add b a)) s1 = (p', inr tt) ->
  restores p p'.
Proof.
  intros Hnd H1 H2.
  pose proof (exit_loop_shape (keys (assets p)) (limiters p) (keys amount) amount p
                (conj eq_refl eq_refl)) as Hs1. rewrite H1 in Hs1.
  pose proof (loop_shape (keys (assets p)) (limiters p) (keys amt) amt py_add s1 Hs1)
    as [HK HL]. rewrite H2 in HK, HL.
  destruct (exit_loop_pointwise (keys amount) amount amt p s1 Hnd H1)
    as (_ & Hin1 & Hout1 & Hkeys).
  rewrite Hkeys in H2 by (intros k Hk; now apply in_keys_get).
  destruct (loop_pointwise amt py_add (keys amount) s1 p' Hnd H2) as (_ & Hin2 & Hout2).
  split; [exact HK|]. split; [exact HL|].
  intros k b Hb. destruct (in_dec string_dec k (keys amount)) as [Hk|Hk].
  - destruct (Hin1 k Hk) as (b0 & a & Hb0 & Ha & Hs & Hamt).
    destruct (Hin2 k Hk) as (b1 & c & Hb1 & Hc & Hp').
    rewrite Hb in Hb0. injection Hb0 as <-. rewrite Hs in Hb1. injection Hb1 as <-.
    rewrite Hamt in Hc. injection Hc as <-.
    eexists. split; [exact Hp'|]. simpl. ring.
  - exists b. split; [|reflexivity]. rewrite Hout2, (proj1 (Hout1 k Hk)) by exact Hk. exact Hb.
Qed.

Lemma swap_rollback_restores (p s0 s1 s2 p' : Pool Q) din dout a :
  iadd_asset din a p = (s0, inr tt) -> isub_asset dout a s0 = (s1, inr tt) ->
  isub_asset din a s1 = (s2, inr tt) -> iadd_asset dout a s2 = (p', inr tt) ->
  restores p p'.
Proof.
  intros H0 H1 H2 H3.
  pose proof (proj1 (iadd_isub_shape (keys (assets p)) (limiters p) din a) p
                (conj eq_refl eq_refl)) as Hs0. rewrite H0 in Hs0.
  pose proof (proj2 (iadd_isub_shape (keys (assets p)) (limiters p) dout a) s0 Hs0) as Hs1.
  rewrite H1 in Hs1.
  pose proof (proj2 (iadd_isub_shape (keys (assets p)) (limiters p) din a) s1 Hs1) as Hs2.
  rewrite H2 in Hs2.
  pose proof (proj1 (iadd_isub_shape (keys (assets p)) (limiters p) dout a) s2 Hs2) as [HK HL].
  rewrite H3 in HK, HL. simpl in HK, HL.
  unfold iadd_asset, isub_asset in *. rewrite incr_eval in H0, H1, H2, H3.
  destruct (dict_get (assets p) din) as [b_in|] eqn:E0; [|discriminate]. injection H0; intros; subst.
  destruct (dict_get _ dout) as [v1|] eqn:E1 in H1; [|discriminate]. injection H1; intros; subst.
  destruct (dict_get _ din) as [v2|] eqn:E2 in H2; [|discriminate]. injection H2; intros; subst.
  destruct (dict_get _ dout) as [v3|] eqn:E3 in H3; [|discriminate]. injection H3; intros; subst.
  simpl in *. rewrite !dict_get_set in E1, E2, E3.
  split; [exact HK|]. split; [exact HL|].
  intros k b Hb. simpl. rewrite !dict_get_set.
  destruct (String.eqb_spec dout din) as [Edd|Edd].
  - subst dout. rewrite String.eqb_refl in E2. simpl in E2.
    injection E1 as <-. injection E2 as <-. injection E3 as <-.
    destruct (String.eqb_spec k din) as [->|Hk].
    + rewrite E0 in Hb. injection Hb as <-. eexists; split; [reflexivity|simpl; ring].
    + exists b; split; [exact Hb|reflexivity].
  - destruct (String.eqb_spec din dout) as [E'|_]; [congruence|].
    rewrite dict_get_set_same in E2, E3.
    injection E2 as <-. injection E3 as <-.
    destruct (String.eqb_spec k dout) as [->|Hk1].
    + rewrite E1 in Hb. injection Hb as <-. eexists; split; [reflexivity|simpl; ring].
    + destruct (String.eqb_spec k din) as [->|Hk2].
      * rewrite E0 in Hb. injection Hb as <-. eexists; split; [reflexivity|simpl; ring].
      * exists b; split; [exact Hb|reflexivity].
Qed.

(** ** Exact rollback *)

(** X10. With exact arithmetic, a [join_pool] whose amount keys are distinct
    and that returns [False] leaves the pool as it found it: same keys, same
    limiters, and each balance [(b + a) - a == b]. *)
Theorem join_reject_restores (p p' : Pool Q) t amount :
  NoDup (keys amount) -> join_pool t amount p = (p', inr false) -> restores p p'.
Proof.
  intros Hnd Hj.
  unfold join_pool in Hj. apply bind_inr in Hj as (s1 & [] & H1 & H2).
  apply (limit_tail_reject t _ s1 p') in H2 as [_ H2].
  exact (join_rollback_restores p s1 p' amount Hnd H1 H2).
Qed.

(** X11. With exact arithmetic, an [exit_pool] whose amount keys are
    distinct and that returns [False] leaves the pool as it found it: the
    clamped amount [c] is subtracted and added back, [(b - c) + c == b]. *)
Theorem exit_reject_restores (p p' : Pool Q) t amount :
  NoDup (keys amount) -> exit_pool t amount p = (p', inr false) -> restores p p'.
Proof.
  intros Hnd Hx.
  unfold exit_pool in Hx. apply bind_inr in Hx as (s1 & amt & H1 & H2).
  apply (limit_tail_reject t _ s1 p') in H2 as [_ H2].
  exact (exit_rollback_restores p s1 p' amount amt Hnd H1 H2).
Qed.

(** X12. With exact arithmetic, a [swap] that returns [False] leaves the
    pool as it found it, also when [denom_in] and [denom_out] are the same
    asset. *)
Theorem swap_reject_restores (p p' : Pool Q) din dout t a :
  swap din dout t a p = (p', inr false) -> restores p p'.
Proof.
  intros Hs.
  unfold swap in Hs. apply bind_inr in Hs as (s0 & [] & H0 & Hs).
  apply bind_inr in Hs as (s1 & [] & H1 & H2).
  apply (limit_tail_reject t _ s1 p') in H2 as [_ H2].
  apply bind_inr in H2 as (s2 & [] & H2 & H3).
  exact (swap_rollback_restores p s0 s1 s2 p' din dout a H0 H1 H2 H3).
Qed.

Lemma join_reject_restores_witness :
  restores pool_q_lim (fst (join_pool 1 [("x"%string, (1 # 5)%Q)] pool_q_lim)).
Proof.
  apply (join_reject_restores pool_q_lim _ 1 [("x"%string, (1 # 5)%Q)]).
  - repeat constructor; intros [].
  - vm_compute. reflexivity.
Defined.

Lemma exit_reject_restores_witness :
  restores pool_q_lim (fst (exit_pool 1 [("y"%string, (1 # 20)%Q)] pool_q_lim)).
Proof.
  apply (exit_reject_restores pool_q_lim _ 1 [("y"%string, (1 # 20)%Q)]).
  - repeat constructor; intros [].
  - vm_compute. reflexivity.
Defined.

Lemma swap_reject_restores_witness :
  restores pool_q_lim (fst (swap "x"%string "y"%string 1 (1 # 20)%Q pool_q_lim)).
Proof.
  apply (swap_reject_restores pool_q_lim _ "x"%string "y"%string 1 (1 # 20)%Q).
  vm_compute. reflexivity.
Defined.

(** ** The driver keeps balances non-negative *)

Lemma restores_nonneg (p p' : Pool Q) :
  NoDup (keys (assets p)) -> restores p p' -> all_nonneg p -> all_nonneg p'.
Proof.
  intros Hnd (HK & _ & Hb) Hp. unfold all_nonneg. apply Forall_forall.
  intros [k v'] Hin. simpl.
  assert (Hg' : dict_get (assets p') k = Some v')
    by (apply dict_get_NoDup_In; [rewrite HK; exact Hnd|exact Hin]).
  assert (Hk : In k (keys (assets p)))
    by (rewrite <- HK; apply in_map_iff; now exists (k, v')).
  apply in_keys_get in Hk. destruct (dict_get (assets p) k) as [v|] eqn:Eg; [|congruence].
  destruct (Hb k v Eg) as (b' & Hb' & Heq). rewrite Hg' in Hb'. injection Hb' as <-.
  assert (0 <= v)%Q.
  { apply dict_get_In in Eg. unfold all_nonneg in Hp. rewrite Forall_forall in Hp.
    exact (Hp _ Eg). }
  rewrite Heq. assumption.
Qed.

Lemma tail_preserves {T : Type} `{PyNum T} (I : Pool T -> Prop) t rb (s1 : Pool T) :
  I s1 -> (surpassed_limit_of s1 t = inr true -> I (fst (rb s1))) ->
  I (fst (limit_tail t rb s1)).
Proof.
  intros Hs Hrb. unfold limit_tail, bind at 1, surpassed_limit.
  destruct (surpassed_limit_of s1 t) as [e|[|]]; simpl; [exact Hs| |exact Hs].
  specialize (Hrb eq_refl). unfold bind. destruct (rb s1) as [s2 [e|[]]]; exact Hrb.
Qed.

Lemma fst_bind_ret {S A : Type} (m : PyM S A) (s : S) :
  fst ((_ <- m ;; ret tt) s) = fst (m s).
Proof. unfold bind. destruct (m s) as [s' [e|a]]; reflexivity. Qed.

Lemma exit_amounts_reads {T : Type} `{PyNum T} (ds : list string) (x : T) (acc : dict T) (s : Pool T) :
  fst (exit_amounts ds x acc s) = s /\
  (forall amt, snd (exit_amounts ds x acc s) = inr amt -> NoDup (keys acc) -> NoDup (keys amt)).
Proof.
  revert acc. induction ds as [|d ds IH]; intros acc; simpl.
  - unfold ret. split; [reflexivity|]. intros amt E Hnd. simpl in E. injection E as <-. exact Hnd.
  - rewrite bind_unfold. unfold get_asset. destruct (getitem (assets s) d) as [e|b]; simpl.
    + split; [reflexivity|intros ? E; discriminate E].
    + destruct (IH (dict_set acc d (if py_ltb b x then b else x))) as [H1 H2].
      split; [exact H1|]. intros amt E Hnd. apply (H2 amt E). now apply NoDup_keys_set.
Qed.

Lemma fold_set_values {V : Type} (P : V -> Prop) (ks : list string) (v : V) (acc : dict V) :
  Forall (fun kv => P (snd kv)) acc -> P v ->
  Forall (fun kv => P (snd kv)) (fold_left (fun d k => dict_set d k v) ks acc).
Proof.
  revert acc. induction ks as [|k ks IH]; intros acc Hacc Hv; simpl; [exact Hacc|].
  apply IH; [now apply Forall_dict_set|exact Hv].
Qed.

(** X13. With exact arithmetic, one random action of [Simulation.run] (a
    join of the drawn amount, clamped below at 0, to sampled denoms; an exit
    of [min(amount, balance)] from sampled denoms; or a swap whose amount is
    clamped to the balance of [denom_out]) keeps every balance >= 0,
    whatever the pool operation returns or raises, on a pool with distinct
    denoms and non-negative balances. *)
Theorem run_action_nonneg (p : Pool Q) act denom amount denom_out sample t :
  all_nonneg p -> NoDup (denoms p) ->
  all_nonneg (fst (run_action act denom amount denom_out sample t p)).
Proof.
  intros Hp Hnd. unfold run_action. cbv zeta.
  set (a0 := if py_ltb amount py_zero then py_zero else amount).
  assert (Ha0 : (0 <= a0)%Q).
  { unfold a0. simpl. destruct (Qle_bool 0 amount) eqn:E; simpl.
    - now apply Qle_bool_iff.
    - apply Qle_refl. }
  clearbody a0.
  destruct act.
  - (* join *)
    rewrite fst_bind_ret.
    set (D := fold_left (fun d k => dict_set d k a0) sample []).
    assert (HD : Forall (fun kv => 0 <= snd kv)%Q D)
      by (apply fold_set_values; [constructor|exact Ha0]).
    assert (HnD : NoDup (keys D)) by (apply NoDup_keys_fold; constructor).
    clearbody D. unfold join_pool. rewrite bind_unfold.
    pose proof (join_loop_nonneg D HD p Hp) as Hl.
    destruct (for_ (keys D) _ p) as [s1 [e|[]]] eqn:E1; [exact Hl|].
    apply (tail_preserves all_nonneg); [exact Hl|intros _].
    destruct (loop_pointwise D py_add (keys D) p s1 HnD E1) as (_ & Hin1 & _).
    destruct (loop_total D py_sub (keys D) s1) as [p' E2].
    { intros k Hk. destruct (Hin1 k Hk) as (b & a & _ & Ha & Hs).
      split; congruence. }
    rewrite E2. simpl.
    apply (restores_nonneg p); [exact Hnd| |exact Hp].
    exact (join_rollback_restores p s1 p' D HnD E1 E2).
  - (* exit *)
    rewrite bind_unfold.
    destruct (exit_amounts_reads sample a0 [] p) as [Hr Hamt].
    destruct (exit_amounts sample a0 [] p) as [s' [e|amt]] eqn:E0; simpl in Hr; subst s';
      [exact Hp|].
    specialize (Hamt amt eq_refl (NoDup_nil _)).
    rewrite fst_bind_ret. unfold exit_pool. rewrite bind_unfold.
    pose proof (exit_loop_nonneg (keys amt) amt p Hp) as Hl.
    destruct (exit_loop (keys amt) amt p) as [s1 [e|amt']] eqn:E1; [exact Hl|].
    apply (tail_preserves all_nonneg); [exact Hl|intros _].
    destruct (exit_loop_pointwise (keys amt) amt amt' p s1 Hamt E1) as (_ & Hin1 & _ & Hkeys).
    rewrite Hkeys in * by (intros k Hk; now apply in_keys_get).
    destruct (loop_total amt' py_add (keys amt) s1) as [p' E2].
    { intros k Hk. destruct (Hin1 k Hk) as (b & a & _ & _ & Hs & Hc).
      split; congruence. }
    rewrite E2. simpl.
    apply (restores_nonneg p); [exact Hnd| |exact Hp].
    apply (exit_rollback_restores p s1 p' amt amt' Hamt E1).
    rewrite Hkeys by (intros k Hk; now apply in_keys_get). exact E2.
  - (* swap *)
    rewrite bind_unfold. unfold get_asset at 1, getitem at 1.
    destruct (dict_get (assets p) denom_out) as [b_out|] eqn:Eout; [|exact Hp].
    rewrite fst_bind_ret.
    assert (Hbo : (0 <= b_out)%Q).
    { apply dict_get_In in Eout. unfold all_nonneg in Hp. rewrite Forall_forall in Hp.
      exact (Hp _ Eout). }
    set (a1 := if py_ltb b_out a0 then b_out else a0).
    assert (Ha1 : (0 <= a1 <= b_out)%Q).
    { unfold a1. simpl. destruct (Qle_bool a0 b_out) eqn:E; simpl.
      - apply Qle_bool_iff in E. lra.
      - split; [exact Hbo|apply Qle_refl]. }
    clearbody a1.
    unfold swap. rewrite bind_unfold.
    destruct (iadd_asset denom a1 p) as [s0 [e|[]]] eqn:H0.
    { unfold iadd_asset in H0. rewrite incr_eval in H0.
      destruct (dict_get (assets p) denom) in H0; [discriminate|]. injection H0; intros; subst.
      exact Hp. }
    pose proof H0 as H0'. unfold iadd_asset in H0'. rewrite incr_eval in H0'.
    destruct (dict_get (assets p) denom) as [b_in|] eqn:Ein; [|discriminate].
    injection H0'; intros; subst s0.
    assert (Hbi : (0 <= b_in)%Q).
    { apply dict_get_In in Ein. unfold all_nonneg in Hp. rewrite Forall_forall in Hp.
      exact (Hp _ Ein). }
    assert (Hs0 : all_nonneg {| assets := dict_set (assets p) denom (py_add b_in a1);
                                limiters := limiters p |})
      by (apply all_nonneg_set; [exact Hp|simpl; lra]).
    rewrite bind_unfold.
    destruct (isub_asset denom_out a1 _) as [s1 [e|[]]] eqn:H1.
    { unfold isub_asset in H1. rewrite incr_eval in H1.
      destruct (dict_get _ denom_out) in H1; [discriminate|]. injection H1; intros; subst.
      exact Hs0. }
    pose proof H1 as H1'. unfold isub_asset in H1'. rewrite incr_eval in H1'.
    destruct (dict_get _ denom_out) as [v1|] eqn:E1 in H1'; [|discriminate].
    injection H1'; intros; subst s1.
    assert (Hv1 : (a1 <= v1)%Q).
    { simpl in E1. rewrite dict_get_set in E1.
      destruct (String.eqb_spec denom_out denom) as [->|_].
      - injection E1 as <-. rewrite Ein in Eout. injection Eout as ->. simpl. lra.
      - rewrite Eout in E1. injection E1 as <-. lra. }
    assert (Hs1 : all_nonneg {| assets := dict_set (assets {| assets := dict_set (assets p) denom (py_add b_in a1);
                                limiters := limiters p |}) denom_out (py_sub v1 a1);
                                limiters := limiters {| assets := dict_set (assets p) denom (py_add b_in a1);
                                limiters := limiters p |} |})
      by (apply all_nonneg_set; [exact Hs0|simpl; lra]).
    apply (tail_preserves all_nonneg); [exact Hs1|intros _].
    rewrite bind_unfold.
    destruct (isub_asset denom a1 _) as [s2 [e|[]]] eqn:H2.
    { exfalso. unfold isub_asset in H2. rewrite incr_eval in H2. simpl in H2.
      rewrite dict_get_set, dict_get_set_same in H2.
      destruct (String.eqb denom denom_out); discriminate. }
    destruct (iadd_asset denom_out a1 s2) as [p' [e|[]]] eqn:H3.
    { exfalso. unfold iadd_asset in H3. rewrite incr_eval in H3.
      unfold isub_asset in H2. rewrite incr_eval in H2.
      destruct (dict_get _ denom) in H2; [|discriminate]. injection H2; intros; subst s2.
      simpl in H3. rewrite dict_get_set, dict_get_set_same in H3.
      destruct (String.eqb denom_out denom); discriminate. }
    simpl.
    apply (restores_nonneg p); [exact Hnd| |exact Hp].
    exact (swap_rollback_restores p _ _ s2 p' denom denom_out a1 H0 H1 H2 H3).
Qed.

Lemma run_action_nonneg_witness :
  all_nonneg (fst (run_action SwapAction "x"%string 5%Q "y"%string [] 1 pool_q)) /\
  all_nonneg (fst (run_action ExitAction "x"%string 5%Q "y"%string ["x"%string; "y"%string] 1 pool_q)).
Proof.
  split; apply run_action_nonneg;
    solve [unfold all_nonneg; nonneg_by_compute | repeat constructor; simpl; intuition discriminate].
Defined.

(** ** Committed operations *)

(** X14. A [join_pool] whose amount keys are distinct and that returns
    [True] keeps the keys and the limiters, leaves each listed asset at
    [b + a] (the same float operation, so also exactly with floats), and
    leaves every other asset unchanged. *)
Theorem join_commit_balances {T : Type} `{PyNum T} (p p' : Pool T) t amount :
  NoDup (keys amount) -> join_pool t amount p = (p', inr true) ->
  keys (assets p') = keys (assets p) /\ limiters p' = limiters p /\
  (forall k a, dict_get amount k = Some a ->
     exists b, dict_get (assets p) k = Some b /\ dict_get (assets p') k = Some (py_add b a)) /\
  (forall k, dict_get amount k = None -> dict_get (assets p') k = dict_get (assets p) k).
Proof.
  intros Hnd Hj. unfold join_pool in Hj. apply bind_inr in Hj as (s1 & [] & H1 & H2).
  apply limit_tail_commit in H2. subst p'.
  pose proof (loop_shape (keys (assets p)) (limiters p) (keys amount) amount py_add p
                (conj eq_refl eq_refl)) as [HK HL]. rewrite H1 in HK, HL.
  destruct (loop_pointwise amount py_add (keys amount) p s1 Hnd H1) as (_ & Hin & Hout).
  split; [exact HK|]. split; [exact HL|]. split.
  - intros k a Ha. assert (Hk : In k (keys amount)) by (apply in_keys_get; congruence).
    destruct (Hin k Hk) as (b & a' & Hb & Ha' & Hs). rewrite Ha in Ha'.
    injection Ha' as <-. eauto.
  - intros k Hk. apply Hout. intros Hk'. apply in_keys_get in Hk'. contradiction.
Qed.

(** X15. An [exit_pool] whose amount keys are distinct and that returns
    [True] keeps the keys and the limiters, leaves each listed asset at
    [b - c] with [c] the amount clamped to the balance ([c = b] when
    [b < a], else [c = a]), and leaves every other asset unchanged. *)
Theorem exit_commit_balances {T : Type} `{PyNum T} (p p' : Pool T) t amount :
  NoDup (keys amount) -> exit_pool t amount p = (p', inr true) ->
  keys (assets p') = keys (assets p) /\ limiters p' = limiters p /\
  (forall k a, dict_get amount k = Some a ->
     exists b, dict_get (assets p) k = Some b /\
       dict_get (assets p') k = Some (py_sub b (if py_ltb b a then b else a))) /\
  (forall k, dict_get amount k = None -> dict_get (assets p') k = dict_get (assets p) k).
Proof.
  intros Hnd Hx. unfold exit_pool in Hx. apply bind_inr in Hx as (s1 & amt & H1 & H2).
  apply limit_tail_commit in H2. subst p'.
  pose proof (exit_loop_shape (keys (assets p)) (limiters p) (keys amount) amount p
                (conj eq_refl eq_refl)) as [HK HL]. rewrite H1 in HK, HL.
  destruct (exit_loop_pointwise (keys amount) amount amt p s1 Hnd H1)
    as (_ & Hin & Hout & _).
  split; [exact HK|]. split; [exact HL|]. split.
  - intros k a Ha. assert (Hk : In k (keys amount)) by (apply in_keys_get; congruence).
    destruct (Hin k Hk) as (b & a' & Hb & Ha' & Hs & _). rewrite Ha in Ha'.
    injection Ha' as <-. eauto.
  - intros k Hk. apply Hout. intros Hk'. apply in_keys_get in Hk'. contradiction.
Qed.

Lemma join_commit_balances_witness :
  exists b, dict_get (assets pool_x5) "x"%string = Some b /\
    dict_get (assets (fst (join_pool 1 [("x"%string, 2%float)] pool_x5))) "x"%string
      = Some (py_add b 2%float).
Proof.
  refine (proj1 (proj2 (proj2
            (join_commit_balances pool_x5 _ 1 [("x"%string, 2%float)] _ _))) "x"%string 2%float _).
  - repeat constructor; intros [].
  - vm_compute. reflexivity.
  - reflexivity.
Defined.

Lemma exit_commit_balances_witness :
  exists b, dict_get (assets pool_q) "x"%string = Some b /\
    dict_get (assets (fst (exit_pool 1 [("x"%string, 3%Q)] pool_q))) "x"%string
      = Some (py_sub b (if py_ltb b 3%Q then b else 3%Q)).
Proof.
  refine (proj1 (proj2 (proj2
            (exit_commit_balances pool_q _ 1 [("x"%string, 3%Q)] _ _))) "x"%string 3%Q _).
  - repeat constructor; intros [].
  - vm_compute. reflexivity.
  - reflexivity.
Defined.

(** ** Projection along the ones vector *)

Lemma fold_Qplus_map_add (m : list Q) (c acc : Q) :
  (fold_left Qplus (map (fun x => x + c) m) acc
   == acc + fold_left Qplus m 0 + inject_Z (Z.of_nat (List.length m)) * c)%Q.
Proof.
  revert acc. induction m as [|x m IH]; intros acc; cbn [map fold_left List.length].
  - simpl. ring.
  - rewrite IH, (fold_Qplus_shift m (0 + x)%Q).
    rewrite Nat2Z.inj_succ, <- Z.add_1_r, inject_Z_plus. ring.
Qed.

(** X16. With exact arithmetic, [project_point] only sees [m] up to a
    multiple of the ones vector: adding the same [c] to every coordinate
    does not change the projection. *)
Theorem project_point_shift (m : list Q) (c : Q) :
  Forall2 Qeq (project_point (map (fun x => x + c) m)) (project_point m).
Proof.
  destruct m as [|x0 m0]; [constructor|].
  assert (Hn : ~ (inject_Z (Z.of_nat (List.length (x0 :: m0))) == 0)%Q)
    by (simpl List.length; intros E; unfold Qeq in E; simpl in E; lia).
  revert Hn. generalize (x0 :: m0). intros m Hn.
  unfold project_point. rewrite length_map, map_map. apply Forall2_map2_Qeq. intros x.
  simpl. rewrite !dot_ones_Q. unfold py_sum. simpl.
  rewrite fold_Qplus_map_add. field. exact Hn.
Qed.
